(** * The learner process of the neural symbolic machine trainer

    A shallow embedding of [nsm/learner.py]: the [Learner] object, its
    training loop [train], the checkpoint publication methods
    [update_model_to_actors] and [push_new_model], and the registration
    methods.  Python objects that live outside this file of the repository
    (the parser agent, the shared program cache, the platform's queue and
    disk) are taken as parameters.

    Floating point numbers are idealised: a [scalar] is either a rational or
    the value [NaN] that [torch.mean] returns on an empty tensor. *)

From Stdlib Require Import QArith Qfield.
From Stdlib Require Import Ascii String.
From stdpp Require Import gmap strings list pretty.

Local Open Scope Z_scope.

(** ** Scalars and one-dimensional tensors *)

Inductive scalar : Type :=
| Fin (q : Q)
| NaN.

Definition scalar_eq (a b : scalar) : Prop :=
  match a, b with
  | Fin x, Fin y => Qeq x y
  | NaN, NaN => True
  | _, _ => False
  end.

Definition sneg (a : scalar) : scalar :=
  match a with Fin x => Fin (Qopp x) | NaN => NaN end.

Definition sadd (a b : scalar) : scalar :=
  match a, b with Fin x, Fin y => Fin (Qplus x y) | _, _ => NaN end.

Definition smul (a b : scalar) : scalar :=
  match a, b with Fin x, Fin y => Fin (Qmult x y) | _, _ => NaN end.

(** [x / k] and [x * k] for a Python integer [k]; the callers guard [k]. *)
Definition sdiv_int (a : scalar) (k : Z) : scalar :=
  match a with Fin x => Fin (Qdiv x (inject_Z k)) | NaN => NaN end.

Definition smul_int (a : scalar) (k : Z) : scalar :=
  match a with Fin x => Fin (Qmult x (inject_Z k)) | NaN => NaN end.

Definition Qsum (t : list Q) : Q := fold_right Qplus (0%Q) t.

(** [t.mean()]: [nan] on an empty tensor. *)
Definition tensor_mean (t : list Q) : scalar :=
  match t with
  | [] => NaN
  | _ :: _ => Fin (Qdiv (Qsum t) (inject_Z (Z.of_nat (length t))))
  end.

(** ** Python exceptions and outcomes *)

Inductive exn : Type :=
| ZeroDivisionError
| UnboundLocalError
| AttributeError
| ValueError
| RuntimeError
| FileNotFoundError
| OSError
| AgentError.

(** What a piece of the loop does: it returns, it raises, or it sits on
    [train_queue.get()] with nothing to receive. *)
Inductive outcome (A : Type) : Type :=
| Done (a : A)
| Raised (e : exn)
| Blocked.
Arguments Done {A} a.
Arguments Raised {A} e.
Arguments Blocked {A}.

(** [a * b] on one-dimensional tensors: equal sizes, or broadcasting of a
    size-one operand; anything else is a size mismatch. *)
Definition tensor_mul (a b : list Q) : exn + list Q :=
  if decide (length a = length b) then inr (zip_with Qmult a b)
  else match a, b with
       | [x], _ => inr (map (Qmult x) b)
       | _, [y] => inr (map (fun x => Qmult x y) a)
       | _, _ => inl RuntimeError
       end.

(** [a % b] and [a / b] on Python integers. *)
Definition py_mod (a b : Z) : exn + Z :=
  if decide (b = 0) then inl ZeroDivisionError else inr (a mod b).

Definition py_truediv (a b : Z) : exn + scalar :=
  if decide (b = 0) then inl ZeroDivisionError
  else inr (Fin (Qdiv (inject_Z a) (inject_Z b))).

(** ** Paths *)

(** Truthiness of [str] and of [None]. *)
Definition truthy (p : option string) : bool :=
  match p with
  | None => false
  | Some s => negb (String.eqb s "")
  end.

Fixpoint ends_with_slash (s : string) : bool :=
  match s with
  | EmptyString => false
  | String c EmptyString => Ascii.eqb c ("/" : Ascii.ascii)
  | String _ rest => ends_with_slash rest
  end.

Definition starts_with_slash (s : string) : bool :=
  match s with
  | String c _ => Ascii.eqb c ("/" : Ascii.ascii)
  | EmptyString => false
  end.

(** [os.path.join(a, b)] on a POSIX system. *)
Definition os_path_join (a b : string) : string :=
  if starts_with_slash b then b
  else if String.eqb a "" then b
  else if ends_with_slash a then a +:+ b
  else a +:+ "/" +:+ b.

(** ['agent_state.iter%d.bin' % train_iter] *)
Definition checkpoint_file_name (train_iter : Z) : string :=
  "agent_state.iter" +:+ pretty train_iter +:+ ".bin".

(** ** Data model *)

(** [config]: the keys [train] reads.  The three read with [config.get]
    are optional and carry the defaults of the source. *)
Record Config : Type := mkConfig {
  work_dir : string;
  save_every_niter : Z;
  entropy_reg_weight : Q;
  max_train_step : Z;
  opt_save_program_cache_niter : option Z;
  opt_freeze_bert_niter : option Z;
  opt_gradient_accumulation_niter : option Z
}.

Definition save_program_cache_niter (c : Config) : Z :=
  default 0 (opt_save_program_cache_niter c).
Definition freeze_bert_for_niter (c : Config) : Z :=
  default 0 (opt_freeze_bert_niter c).
Definition gradient_accumulation_niter (c : Config) : Z :=
  default 1 (opt_gradient_accumulation_niter c).

(** [os.path.join(self.config['work_dir'], 'agent_state.iter%d.bin' % train_iter)] *)
Definition model_save_path (c : Config) (train_iter : Z) : string :=
  os_path_join (work_dir c) (checkpoint_file_name train_iter).

Record ProgramCacheStat : Type := mkStat {
  num_entries : Z;
  num_envs : Z
}.

(** The shared program cache is written by the actors while the learner
    runs: [stat] is what [stat()] answers when asked at a given iteration. *)
Record SharedProgramCache : Type := mkCache {
  stat : Z -> ProgramCacheStat
}.

Inductive param_group : Type := Other | Bert.

(** An optimizer object: the number of [step()] calls it has received since
    it was constructed (its running moment estimates are empty iff 0). *)
Record Optimizer : Type := mkOptimizer {
  n_steps : nat
}.

Definition fresh_optimizer : Optimizer := mkOptimizer 0.
Definition stepped (o : Optimizer) : Optimizer := mkOptimizer (S (n_steps o)).

(** What the learner does to the outside, in order. *)
Inductive event : Type :=
| EvZeroGrad (g : param_group)
| EvAddScalar (tag : string) (v : scalar) (step : Z)
| EvBackward (loss : scalar)
| EvClipGradNorm (grads : list scalar)
| EvStep (g : param_group) (grads : list scalar)
| EvResetOptimizer
| EvTorchSave (path : string)
| EvQueuePut (path : option string)
| EvSlotWrite (path : string)
| EvRemove (path : string)
| EvDumpProgramCache (train_iter : Z).

(** The learner object, the local variables of [train], the disk and the
    trace of events.  A gradient buffer is the list of losses propagated
    back into it since it was last zeroed.  [files] is the disk as the
    checkpoint protocol sees it: the checkpoints, and what was there before
    the learner ran; the dumps of the program cache under [work_dir/log]
    are recorded in the trace only. *)
Record Learner : Type := mkLearner {
  checkpoint_queue : list (option string);
  eval_msg_val : option string;
  current_model_path : option string;
  actor_num : Z;
  train_iter : Z;
  cum_loss : scalar;
  cum_examples : Z;
  other_optimizer : Optimizer;
  bert_optimizer : Optimizer;
  other_grad : list scalar;
  bert_grad : list scalar;
  entropy : option (list Q);
  files : gset string;
  trace : list event
}.

Definition with_checkpoint_queue q (s : Learner) : Learner :=
  mkLearner q (eval_msg_val s) (current_model_path s) (actor_num s)
    (train_iter s) (cum_loss s) (cum_examples s) (other_optimizer s)
    (bert_optimizer s) (other_grad s) (bert_grad s) (entropy s) (files s)
    (trace s).
Definition with_eval_msg_val v (s : Learner) : Learner :=
  mkLearner (checkpoint_queue s) v (current_model_path s) (actor_num s)
    (train_iter s) (cum_loss s) (cum_examples s) (other_optimizer s)
    (bert_optimizer s) (other_grad s) (bert_grad s) (entropy s) (files s)
    (trace s).
Definition with_current_model_path p (s : Learner) : Learner :=
  mkLearner (checkpoint_queue s) (eval_msg_val s) p (actor_num s)
    (train_iter s) (cum_loss s) (cum_examples s) (other_optimizer s)
    (bert_optimizer s) (other_grad s) (bert_grad s) (entropy s) (files s)
    (trace s).
Definition with_actor_num n (s : Learner) : Learner :=
  mkLearner (checkpoint_queue s) (eval_msg_val s) (current_model_path s) n
    (train_iter s) (cum_loss s) (cum_examples s) (other_optimizer s)
    (bert_optimizer s) (other_grad s) (bert_grad s) (entropy s) (files s)
    (trace s).
Definition with_train_iter i (s : Learner) : Learner :=
  mkLearner (checkpoint_queue s) (eval_msg_val s) (current_model_path s)
    (actor_num s) i (cum_loss s) (cum_examples s) (other_optimizer s)
    (bert_optimizer s) (other_grad s) (bert_grad s) (entropy s) (files s)
    (trace s).
Definition with_cum l n (s : Learner) : Learner :=
  mkLearner (checkpoint_queue s) (eval_msg_val s) (current_model_path s)
    (actor_num s) (train_iter s) l n (other_optimizer s)
    (bert_optimizer s) (other_grad s) (bert_grad s) (entropy s) (files s)
    (trace s).
Definition with_other_optimizer o (s : Learner) : Learner :=
  mkLearner (checkpoint_queue s) (eval_msg_val s) (current_model_path s)
    (actor_num s) (train_iter s) (cum_loss s) (cum_examples s) o
    (bert_optimizer s) (other_grad s) (bert_grad s) (entropy s) (files s)
    (trace s).
Definition with_bert_optimizer o (s : Learner) : Learner :=
  mkLearner (checkpoint_queue s) (eval_msg_val s) (current_model_path s)
    (actor_num s) (train_iter s) (cum_loss s) (cum_examples s)
    (other_optimizer s) o (other_grad s) (bert_grad s) (entropy s) (files s)
    (trace s).
Definition with_grads go gb (s : Learner) : Learner :=
  mkLearner (checkpoint_queue s) (eval_msg_val s) (current_model_path s)
    (actor_num s) (train_iter s) (cum_loss s) (cum_examples s)
    (other_optimizer s) (bert_optimizer s) go gb (entropy s) (files s)
    (trace s).
Definition with_entropy e (s : Learner) : Learner :=
  mkLearner (checkpoint_queue s) (eval_msg_val s) (current_model_path s)
    (actor_num s) (train_iter s) (cum_loss s) (cum_examples s)
    (other_optimizer s) (bert_optimizer s) (other_grad s) (bert_grad s) e
    (files s) (trace s).
Definition with_files f (s : Learner) : Learner :=
  mkLearner (checkpoint_queue s) (eval_msg_val s) (current_model_path s)
    (actor_num s) (train_iter s) (cum_loss s) (cum_examples s)
    (other_optimizer s) (bert_optimizer s) (other_grad s) (bert_grad s)
    (entropy s) f (trace s).
Definition with_trace t (s : Learner) : Learner :=
  mkLearner (checkpoint_queue s) (eval_msg_val s) (current_model_path s)
    (actor_num s) (train_iter s) (cum_loss s) (cum_examples s)
    (other_optimizer s) (bert_optimizer s) (other_grad s) (bert_grad s)
    (entropy s) (files s) t.

(** ** The monad of the loop: state and exceptions *)

Definition M (A : Type) : Type := Learner -> outcome A * Learner.

Definition ret {A} (a : A) : M A := fun s => (Done a, s).

Definition bind {A B} (m : M A) (k : A -> M B) : M B :=
  fun s =>
    match m s with
    | (Done a, s1) => k a s1
    | (Raised e, s1) => (Raised e, s1)
    | (Blocked, s1) => (Blocked, s1)
    end.

Definition raise {A} (e : exn) : M A := fun s => (Raised e, s).
Definition block {A} : M A := fun s => (Blocked, s).
Definition get_state : M Learner := fun s => (Done s, s).
Definition modify (f : Learner -> Learner) : M unit := fun s => (Done tt, f s).
Definition emit (e : event) : M unit :=
  modify (fun s => with_trace (trace s ++ [e]) s).

Definition lift {A} (r : exn + A) : M A :=
  match r with inl e => raise e | inr a => ret a end.

Declare Scope learner_scope.
Delimit Scope learner_scope with learner.
Notation "x <- m ;; k" := (bind m (fun x => k))
  (at level 100, m at next level, right associativity) : learner_scope.
Notation "m ;;; k" := (bind m (fun _ => k))
  (at level 100, right associativity) : learner_scope.
Local Open Scope learner_scope.

(** ** The learner *)

(** Capacity of [multiprocessing.Array(ctypes.c_char, 4096)]. *)
Definition slot_capacity : nat := 4096.

Section Learner.

  (** Trajectories are opaque to the learner. *)
Context {Trajectory : Type}.

Record TrainingSample : Type := mkSample {
    trajectory : Trajectory;
    weight : Q
  }.

  (** One message of the train queue: [(train_samples, samples_info)]. *)
Definition SampleBatch : Type := (list TrainingSample * gmap string Q)%type.

  (** The collaborators of the learner.  [agent] is the forward pass
      [self.agent(train_trajectories, return_info=True)], reduced to the
      log-probabilities it returns or the exception it raises; [qsize] is
      [train_queue.qsize()] at an iteration, [None] where the platform raises
      [NotImplementedError]; [torch_save_ok] says whether writing a path
      succeeds. *)
Variable agent : list Trajectory -> exn + list Q.
Variable qsize : Z -> option Z.
Variable torch_save_ok : string -> bool.
Variable shared_program_cache : option SharedProgramCache.
Variable config : Config.

  (** [Learner.__init__], on a disk holding [disk]. *)
Definition init (disk : gset string) : Learner :=
    {| checkpoint_queue := [];
       eval_msg_val := None;
       current_model_path := None;
       actor_num := 0;
       train_iter := 0;
       cum_loss := Fin 0;
       cum_examples := 0;
       other_optimizer := fresh_optimizer;
       bert_optimizer := fresh_optimizer;
       other_grad := [];
       bert_grad := [];
       entropy := None;
       files := disk;
       trace := [] |}.

Definition register_actor : M unit :=
    modify (fun s => with_actor_num (actor_num s + 1) s).

Definition register_evaluator : M unit :=
    modify (with_eval_msg_val (Some "")).

  (** [torch.save(model_state, path)] and [os.remove(path)].  A save that
      fails is rendered as raising [OSError], whichever exception the
      library raises; what is stated of a failed save is stated through
      [torch_save_ok], not through the exception. *)
Definition torch_save (path : string) : M unit :=
    if torch_save_ok path then
      modify (fun s => with_files ({[path]} ∪ files s) s) ;;;
      emit (EvTorchSave path)
    else raise OSError.

Definition os_remove (path : string) : M unit :=
    s <- get_state ;;
    if decide (path ∈ files s) then
      modify (fun s => with_files (files s ∖ {[path]}) s) ;;;
      emit (EvRemove path)
    else raise FileNotFoundError.

  (** [self.eval_msg_val.value = model_path.encode()] *)
Definition write_slot (path : string) : M unit :=
    s <- get_state ;;
    match eval_msg_val s with
    | None => raise AttributeError
    | Some _ =>
        if (String.length path <=? slot_capacity)%nat then
          modify (with_eval_msg_val (Some path)) ;;;
          emit (EvSlotWrite path)
        else raise ValueError
    end.

Definition push_new_model (model_path : option string) : M unit :=
    modify (fun s => with_checkpoint_queue (checkpoint_queue s ++ [model_path]) s) ;;;
    emit (EvQueuePut model_path) ;;;
    if truthy model_path then
      match model_path with
      | Some path => write_slot path
      | None => ret tt
      end
    else ret tt.

Definition update_model_to_actors (train_iter : Z) : M unit :=
    let path := model_save_path config train_iter in
    torch_save path ;;;
    push_new_model (Some path) ;;;
    s <- get_state ;;
    (if truthy (current_model_path s) then
       match current_model_path s with
       | Some old => os_remove old
       | None => ret tt
       end
     else ret tt) ;;;
    modify (with_current_model_path (Some path)).

  (** *** The body of the training loop *)

Definition zero_grad (g : param_group) : M unit :=
    modify (fun s => match g with
                     | Other => with_grads [] (bert_grad s) s
                     | Bert => with_grads (other_grad s) [] s
                     end) ;;;
    emit (EvZeroGrad g).

Definition backward (loss : scalar) : M unit :=
    modify (fun s => with_grads (other_grad s ++ [loss]) (bert_grad s ++ [loss]) s) ;;;
    emit (EvBackward loss).

Definition clip_grad_norm : M unit :=
    s <- get_state ;;
    emit (EvClipGradNorm (other_grad s)).

Definition optimizer_step (g : param_group) : M unit :=
    s <- get_state ;;
    match g with
    | Other =>
        modify (with_other_optimizer (stepped (other_optimizer s))) ;;;
        emit (EvStep Other (other_grad s))
    | Bert =>
        modify (with_bert_optimizer (stepped (bert_optimizer s))) ;;;
        emit (EvStep Bert (bert_grad s))
    end.

Definition add_scalar (tag : string) (v : scalar) : M unit :=
    s <- get_state ;;
    emit (EvAddScalar tag v (train_iter s)).

  (** Lines 108-110: the counter and the two [zero_grad] calls. *)
Definition loop_head : M unit :=
    modify (fun s => with_train_iter (train_iter s + 1) s) ;;;
    zero_grad Other ;;;
    zero_grad Bert.

  (** Lines 125-131: the loss of a batch. *)
Definition batch_loss (batch_log_prob train_sample_weights : list Q)
    : exn + scalar :=
    match tensor_mul batch_log_prob train_sample_weights with
    | inl e => inl e
    | inr weighted =>
        let loss := sneg (tensor_mean weighted) in
        inr (if 1 <? gradient_accumulation_niter config
             then sdiv_int loss (gradient_accumulation_niter config)
             else loss)
    end.

Definition entropy_reg_on : bool :=
    negb (Qeq_bool (entropy_reg_weight config) 0).

  (** Lines 114-148: forward pass, loss, backward pass, clipping.
      Returns [loss_val]. *)
Definition forward_backward (train_samples : list TrainingSample) : M scalar :=
    s <- get_state ;;
    match qsize (train_iter s) with
    | Some queue_size => add_scalar "train_queue_size" (Fin (inject_Z queue_size))
    | None => ret tt
    end ;;;
    let train_trajectories := map trajectory train_samples in
    batch_log_prob <- lift (agent train_trajectories) ;;
    let train_sample_weights := map weight train_samples in
    loss <- lift (batch_loss batch_log_prob train_sample_weights) ;;
    add_scalar "parser_loss" loss ;;;
    loss <- (if entropy_reg_on then
               s <- get_state ;;
               match entropy s with
               | None => raise UnboundLocalError
               | Some t =>
                   let entropy := tensor_mean t in
                   let ent_reg_loss :=
                     smul (Fin (Qopp (entropy_reg_weight config))) entropy in
                   add_scalar "entropy" entropy ;;;
                   add_scalar "entropy_reg_loss" ent_reg_loss ;;;
                   ret (sadd loss ent_reg_loss)
               end
             else ret loss) ;;
    backward loss ;;;
    clip_grad_norm ;;;
    ret loss.

  (** Lines 150-157: the optimizer steps. *)
Definition optimizer_update : M unit :=
    s <- get_state ;;
    r <- lift (py_mod (train_iter s) (gradient_accumulation_niter config)) ;;
    if r =? 0 then
      optimizer_step Other ;;;
      if freeze_bert_for_niter config <? train_iter s then
        optimizer_step Bert
      else if train_iter s =? freeze_bert_for_niter config then
        emit EvResetOptimizer ;;;
        modify (with_other_optimizer fresh_optimizer)
      else ret tt
    else ret tt.

  (** Lines 160-167: [del], the clip fraction, the running sums. *)
Definition bookkeeping (loss_val : scalar) (train_samples : list TrainingSample)
      (samples_info : gmap string Q) : M unit :=
    (if entropy_reg_on then
       s <- get_state ;;
       match entropy s with
       | None => raise UnboundLocalError
       | Some _ => modify (with_entropy None)
       end
     else ret tt) ;;;
    match samples_info !! "clip_frac" with
    | Some v => add_scalar "sample_clip_frac" (Fin v)
    | None => ret tt
    end ;;;
    let n := Z.of_nat (length train_samples) in
    modify (fun s => with_cum (sadd (cum_loss s) (smul_int loss_val n))
                              (cum_examples s + n) s).

  (** [cum_loss / cum_examples] on Python floats. *)
Definition float_div (a : scalar) (n : Z) : exn + scalar :=
    if decide (n = 0) then inl ZeroDivisionError else inr (sdiv_int a n).

  (** Lines 178-188: the statistics of the program cache. *)
Definition log_program_cache_stat : M unit :=
    s <- get_state ;;
    match shared_program_cache with
    | None => raise AttributeError
    | Some cache =>
        let program_cache_stat := stat cache (train_iter s) in
        avg <- lift (py_truediv (num_entries program_cache_stat)
                                (num_envs program_cache_stat)) ;;
        add_scalar "avg_num_programs_in_cache" avg ;;;
        add_scalar "num_programs_in_cache"
                   (Fin (inject_Z (num_entries program_cache_stat)))
    end.

  (** Lines 169-190: the save boundary, or the re-publication.  The
      throughput printed at the boundary divides by elapsed wall-clock time,
      which is left out. *)
Definition checkpoint_phase : M unit :=
    s <- get_state ;;
    r <- lift (py_mod (train_iter s) (save_every_niter config)) ;;
    if r =? 0 then
      lift (float_div (cum_loss s) (cum_examples s)) ;;;
      modify (with_cum (Fin 0) 0) ;;;
      update_model_to_actors (train_iter s) ;;;
      log_program_cache_stat
    else push_new_model (current_model_path s).

  (** Lines 192-199: the dump of the program cache, recorded as an event.
      The file that it writes under [work_dir/log] is not put on [files],
      and the opening of that file is taken to succeed. *)
Definition program_cache_phase : M unit :=
    s <- get_state ;;
    if (0 <? save_program_cache_niter config)
       && (train_iter s mod save_program_cache_niter config =? 0) then
      match shared_program_cache with
      | None => raise AttributeError
      | Some _ => emit (EvDumpProgramCache (train_iter s))
      end
    else ret tt.

  (** One iteration after [train_queue.get()] returned the batch. *)
Definition iteration_body (batch : SampleBatch) : M unit :=
    let '(train_samples, samples_info) := batch in
    loss_val <- forward_backward train_samples ;;
    optimizer_update ;;;
    bookkeeping loss_val train_samples samples_info ;;;
    checkpoint_phase ;;;
    program_cache_phase.

  (** [while train_iter < max_train_step], fed with the batches that the
      actors put on the train queue; the learner blocks when there is none. *)
Fixpoint train_loop (inputs : list SampleBatch) : M unit :=
    s <- get_state ;;
    if train_iter s <? max_train_step config then
      loop_head ;;;
      match inputs with
      | [] => block
      | batch :: rest => iteration_body batch ;;; train_loop rest
      end
    else ret tt.

  (** Lines 64-105: the local variables of [train].  The construction of
      the summary writer and of the two optimizers (lines 70, 89 and 102) is
      taken to succeed. *)
Definition train_locals (s : Learner) : Learner :=
    with_entropy None
      (with_grads [] []
         (with_bert_optimizer fresh_optimizer
            (with_other_optimizer fresh_optimizer
               (with_cum (Fin 0) 0 (with_train_iter 0 s))))).

Definition train (inputs : list SampleBatch) : M unit :=
    modify train_locals ;;;
    train_loop inputs.

End Learner.

(** * Vocabulary of the properties *)

(** The directory part that [os.path.join] puts in front of a relative name. *)
Definition dir_prefix (a : string) : string :=
  if String.eqb a "" then ""
  else if ends_with_slash a then a
  else a +:+ "/".

(** [keeps f m]: running [m] leaves the observation [f] of the state as it
    was, whatever the outcome. *)
Definition keeps {A B} (f : Learner -> B) (m : M A) : Prop :=
  forall s, f (snd (m s)) = f s.

(** [emits P m]: running [m] only appends events to the trace, all of them
    in [P]. *)
Definition emits {A} (P : event -> Prop) (m : M A) : Prop :=
  forall s, exists evs, trace (snd (m s)) = trace s ++ evs /\ Forall P evs.

(** [hoare P m Q]: from a state in [P], [m] ends in an outcome and a state
    related by [Q]. *)
Definition hoare {A} (P : Learner -> Prop) (m : M A)
    (Q : outcome A -> Learner -> Prop) : Prop :=
  forall s, P s -> Q (fst (m s)) (snd (m s)).

(** [never_blocks m]: [m] does not wait on the train queue. *)
Definition never_blocks {A} (m : M A) : Prop :=
  forall s, fst (m s) <> Blocked.

(** The events that [m] appends to the trace when run from [s]. *)
Definition events_of {A} (m : M A) (s : Learner) : list event :=
  drop (length (trace s)) (trace (snd (m s))).

Definition is_raised {A} (r : outcome A) : bool :=
  match r with Raised _ => true | _ => false end.

(** What the checkpoint protocol and the loop counter can see. *)
Definition checkpoint_view (s : Learner) :=
  (current_model_path s, files s, train_iter s, checkpoint_queue s, eval_msg_val s).

(** *** Kinds of events *)

Definition is_step (g : param_group) (e : event) : bool :=
  match e, g with
  | EvStep Other _, Other => true
  | EvStep Bert _, Bert => true
  | _, _ => false
  end.

Definition is_any_step (e : event) : bool :=
  match e with EvStep _ _ => true | _ => false end.

Definition is_reset (e : event) : bool :=
  match e with EvResetOptimizer => true | _ => false end.

Definition is_clip (e : event) : bool :=
  match e with EvClipGradNorm _ => true | _ => false end.

Definition is_backward (e : event) : bool :=
  match e with EvBackward _ => true | _ => false end.

Definition is_zero_grad (e : event) : bool :=
  match e with EvZeroGrad _ => true | _ => false end.

Definition is_gradient_event (e : event) : bool :=
  is_zero_grad e || is_backward e || is_any_step e.

Definition is_checkpoint_event (e : event) : bool :=
  match e with
  | EvTorchSave _ | EvQueuePut _ | EvSlotWrite _ | EvRemove _ => true
  | _ => false
  end.

Definition count_events (f : event -> bool) (evs : list event) : nat :=
  length (List.filter f evs).

(** The state in which the body of an iteration starts: the counter is
    advanced and both gradient buffers are zeroed (lines 108-110). *)
Definition after_loop_head (s : Learner) : Learner :=
  with_trace (trace s ++ [EvZeroGrad Other; EvZeroGrad Bert])
    (with_grads [] [] (with_train_iter (train_iter s + 1) s)).

(** The events of lines 150-157 at counter [t], with the gradient buffers
    [og] and [bg]. *)
Definition update_events (c : Config) (t : Z) (og bg : list scalar) : list event :=
  match py_mod t (gradient_accumulation_niter c) with
  | inl _ => []
  | inr r =>
      if r =? 0 then
        EvStep Other og ::
        (if freeze_bert_for_niter c <? t then [EvStep Bert bg]
         else if t =? freeze_bert_for_niter c then [EvResetOptimizer]
         else [])
      else []
  end.

(** The scalar logged for the size of the train queue, where the platform
    gives one. *)
Definition queue_size_events (qsize : Z -> option Z) (t : Z) : list event :=
  match qsize t with
  | Some n => [EvAddScalar "train_queue_size" (Fin (inject_Z n)) t]
  | None => []
  end.

(** Events that touch neither gradients, optimizers nor clipping. *)
Definition quiet (e : event) : Prop :=
  is_gradient_event e = false /\ is_reset e = false /\ is_clip e = false.

(** *** Checkpoint files *)

(** The disk after an event, and after a list of events. *)
Definition storage_step (disk : gset string) (e : event) : gset string :=
  match e with
  | EvTorchSave p => {[p]} ∪ disk
  | EvRemove p => disk ∖ {[p]}
  | _ => disk
  end.

Definition disk_after (disk : gset string) (evs : list event) : gset string :=
  foldl storage_step disk evs.

(** An event that hands the identifier [p] to a consumer: the put on the
    checkpoint queue, or the write of the evaluator's slot. *)
Definition publishes (p : string) (e : event) : Prop :=
  e = EvQueuePut (Some p) \/ e = EvSlotWrite p.

(** Every publication in [evs] comes after the save of the same path, and
    the file is on the disk at that moment. *)
Definition saved_before_published (disk : gset string) (evs : list event) : Prop :=
  forall pre e post p,
    evs = pre ++ e :: post -> publishes p e ->
    EvTorchSave p ∈ pre /\ p ∈ disk_after disk pre.

(** No checkpoint file of this configuration is on the disk. *)
Definition no_checkpoint_file (c : Config) (disk : gset string) : Prop :=
  forall i, model_save_path c i ∉ disk.

(** The checkpoint of iteration [i] is the only checkpoint file on the disk. *)
Definition only_checkpoint_file (c : Config) (i : Z) (disk : gset string) : Prop :=
  forall j, model_save_path c j ∈ disk <-> j = i.

(** The checkpoint state is in order up to counter [bound]: either nothing
    was published and no checkpoint file exists, or the current path is the
    checkpoint of an iteration up to [bound] and that file is the only
    checkpoint file on the disk. *)
Definition checkpoint_inv (c : Config) (bound : Z) (s : Learner) : Prop :=
  match current_model_path s with
  | None => no_checkpoint_file c (files s)
  | Some p =>
      exists i, i <= bound /\ p = model_save_path c i
                /\ only_checkpoint_file c i (files s)
  end.

(** A property of the state that holds unless the run raised. *)
Definition unless_raised {A} (J : Learner -> Prop) (r : outcome A) (s : Learner) : Prop :=
  is_raised r = false -> J s.

(** *** What a publication does *)

(** The path that [os.remove] is called on when a publication finds
    [cur] as the current path: none for [None] and for the empty string. *)
Definition stale_path (cur : option string) : option string :=
  if truthy cur then cur else None.

Definition stale_files (cur : option string) : gset string :=
  match stale_path cur with Some old => {[old]} | None => ∅ end.

Definition removal_events (cur : option string) : list event :=
  match stale_path cur with Some old => [EvRemove old] | None => [] end.

(** The events of [push_new_model]. *)
Definition push_events (p : option string) : list event :=
  EvQueuePut p :: match stale_path p with Some path => [EvSlotWrite path] | None => [] end.

(** *** The loss in the words of the specification *)

(** The negative mean over the samples of log-probability times weight,
    scaled by [1/K] when [K > 1]. *)
Definition spec_loss (K : Z) (log_probs weights : list Q) : Q :=
  let weighted := zip_with Qmult log_probs weights in
  let mean := Qdiv (Qsum weighted) (inject_Z (Z.of_nat (length weighted))) in
  if 1 <? K then Qmult (Qdiv 1 (inject_Z K)) (Qopp mean) else Qopp mean.

Section Vocabulary.
Context {Trajectory : Type}.
Variable agent : list Trajectory -> exn + list Q.
Variable qsize : Z -> option Z.
Variable torch_save_ok : string -> bool.
Variable shared_program_cache : option SharedProgramCache.
Variable config : Config.

  (** One pass of the loop that receives [batch]: lines 108-199. *)
Definition iteration (batch : @SampleBatch Trajectory) : M unit :=
    loop_head ;;;
    iteration_body agent qsize torch_save_ok shared_program_cache config batch.

  (** The forward and backward pass goes through for these samples: the
      agent answers, the shapes agree, and no entropy term is asked for. *)
Definition forward_ok (train_samples : list (@TrainingSample Trajectory))
      (loss : scalar) : Prop :=
    exists log_probs,
      agent (map trajectory train_samples) = inr log_probs
      /\ batch_loss config log_probs (map weight train_samples) = inr loss
      /\ entropy_reg_on config = false.

  (** The reading of the empty-batch rule: the iteration raises, and the
      counter, the optimizers and the checkpoint state are as before. *)
Definition rejects_empty_batch (samples_info : gmap string Q) (s : Learner) : Prop :=
    let r := iteration ([], samples_info) s in
    is_raised (fst r) = true
    /\ train_iter (snd r) = train_iter s
    /\ count_events is_any_step (events_of (iteration ([], samples_info)) s) = 0%nat
    /\ current_model_path (snd r) = current_model_path s
    /\ files (snd r) = files s.

  (** The reading of the freeze rule at the boundary: the iteration whose
      counter is [freeze_bert_niter] rebuilds the other optimizer once. *)
Definition resets_once_at_freeze (batch : @SampleBatch Trajectory) (s : Learner) : Prop :=
    train_iter s + 1 = freeze_bert_for_niter config ->
    count_events is_reset (events_of (iteration batch) s) = 1%nat.

  (** The reading of the clipping rule: no clipping on an iteration that is
      not an accumulation boundary. *)
Definition clips_only_at_boundary (batch : @SampleBatch Trajectory) (s : Learner) : Prop :=
    1 < gradient_accumulation_niter config ->
    (train_iter s + 1) mod gradient_accumulation_niter config <> 0 ->
    count_events is_clip (events_of (iteration batch) s) = 0%nat.
End Vocabulary.

(** *** A small world to run the learner in *)

(** Trajectories are numbers; the agent gives trajectory [n] the
    log-probability [-n]. *)
Definition example_agent (ts : list nat) : exn + list Q :=
  inr (map (fun n => inject_Z (- Z.of_nat n)) ts).

Definition example_cache : SharedProgramCache :=
  mkCache (fun _ => mkStat 6 3).

Definition example_config (max_step save_every K F : Z) : Config :=
  {| work_dir := "work";
     save_every_niter := save_every;
     entropy_reg_weight := 0;
     max_train_step := max_step;
     opt_save_program_cache_niter := None;
     opt_freeze_bert_niter := Some F;
     opt_gradient_accumulation_niter := Some K |}.

(** The same with an entropy weight of 1/100. *)
Definition entropy_config : Config :=
  {| work_dir := "work";
     save_every_niter := 2;
     entropy_reg_weight := 1 # 100;
     max_train_step := 4;
     opt_save_program_cache_niter := None;
     opt_freeze_bert_niter := None;
     opt_gradient_accumulation_niter := None |}.

(** A cache that reports no environment. *)
Definition empty_cache : SharedProgramCache :=
  mkCache (fun _ => mkStat 0 0).

Definition example_batch (n : nat) : @SampleBatch nat :=
  ([mkSample n 1], ∅).

(** A learner with an evaluator registered, on an empty disk. *)
Definition example_learner : Learner :=
  snd (register_evaluator (init ∅)).

Definition example_iteration (c : Config) (batch : @SampleBatch nat) : M unit :=
  iteration example_agent (fun _ => None) (fun _ => true) (Some example_cache) c batch.

Definition example_train (c : Config) (inputs : list (@SampleBatch nat)) : M unit :=
  train example_agent (fun _ => None) (fun _ => true) (Some example_cache) c inputs.


(** *** The checkpoint protocol over a run *)

(** The last save boundary at or below [n]: the largest multiple of
    [save_every_niter] that is at most [n], for a positive cadence. *)
Definition last_boundary (c : Config) (n : Z) : Z :=
  n - n mod save_every_niter c.

(** The checkpoint that is current after [n] completed iterations. *)
Definition checkpoint_after (c : Config) (n : Z) : option string :=
  if last_boundary c n =? 0 then None
  else Some (model_save_path c (last_boundary c n)).

(** The state of the checkpoint protocol after [n] completed iterations of
    a run that started on the disk [disk0], with the slot [slot0] and
    the checkpoint queue [queue0]: the [i]-th message put on the
    queue is the checkpoint that was current after iteration [i]. *)
Definition protocol_state (c : Config) (disk0 : gset string)
    (slot0 : option string) (queue0 : list (option string)) (n : Z)
    (s : Learner) : Prop :=
  0 <= n
  /\ current_model_path s = checkpoint_after c n
  /\ files s = match checkpoint_after c n with
               | Some p => {[p]} ∪ disk0
               | None => disk0
               end
  /\ eval_msg_val s = match checkpoint_after c n with
                      | Some p => Some p
                      | None => slot0
                      end
  /\ checkpoint_queue s = queue0 ++ map (checkpoint_after c) (seqZ 1 n).

(** The number of iterations that a run has completed: a blocked loop has
    advanced the counter for an iteration that did not run. *)
Definition completed (final : outcome unit * Learner) : Z :=
  match fst final with
  | Blocked => train_iter (snd final) - 1
  | _ => train_iter (snd final)
  end.

(** *** Optimizers, dumps and foreign files *)

Definition is_dump (e : event) : bool :=
  match e with EvDumpProgramCache _ => true | _ => false end.

(** The optimizers after lines 150-157 at counter [t]. *)
Definition other_optimizer_after (c : Config) (t : Z) (o : Optimizer) : Optimizer :=
  if t mod gradient_accumulation_niter c =? 0 then
    if freeze_bert_for_niter c <? t then stepped o
    else if t =? freeze_bert_for_niter c then fresh_optimizer
    else stepped o
  else o.

Definition bert_optimizer_after (c : Config) (t : Z) (o : Optimizer) : Optimizer :=
  if (t mod gradient_accumulation_niter c =? 0) && (freeze_bert_for_niter c <? t)
  then stepped o else o.

(** [always I m]: [m] takes a state in [I] to a state in [I], whatever
    the outcome. *)
Definition always {A} (I : Learner -> Prop) (m : M A) : Prop :=
  forall s, I s -> I (snd (m s)).

(** What the learner may delete. *)
Definition removal_view (s : Learner) := (current_model_path s, files s).

(** The files of [disk0] are on the disk, and the current path, if any, is
    a checkpoint path of this configuration. *)
Definition foreign_files_kept (c : Config) (disk0 : gset string) (s : Learner) : Prop :=
  disk0 ⊆ files s
  /\ match current_model_path s with
     | None => True
     | Some p => exists i, p = model_save_path c i
     end.

(** *** The parameters of the two optimizers (lines 76-102) *)

(** A named parameter of the model, as [model.named_parameters()] yields
    it. *)
Record Param : Type := mkParam {
  p_name : string;
  requires_grad : bool
}.

(** [sub in s] on Python strings. *)
Definition contains (sub s : string) : bool :=
  match String.index 0 sub s with Some _ => true | None => false end.

Definition bert_params (named_parameters : list Param) : list Param :=
  List.filter (fun p => contains "bert_model" (p_name p) && requires_grad p)
    named_parameters.

Definition no_decay : list string := ["bias"; "LayerNorm.bias"; "LayerNorm.weight"].

Definition in_no_decay (p : Param) : bool :=
  existsb (fun nd => contains nd (p_name p)) no_decay.

Record ParamGroup : Type := mkGroup {
  params : list Param;
  weight_decay : Q
}.

Definition bert_grouped_parameters (named_parameters : list Param)
    : list ParamGroup :=
  [ mkGroup (List.filter (fun p => negb (in_no_decay p)) (bert_params named_parameters))
            (1 # 100);
    mkGroup (List.filter in_no_decay (bert_params named_parameters)) 0 ].

Definition other_params (named_parameters : list Param) : list Param :=
  List.filter (fun p => negb (contains "bert_model" (p_name p)) && requires_grad p)
    named_parameters.

(** All the parameters that the two optimizers hold. *)
Definition optimized_params (named_parameters : list Param) : list Param :=
  concat (map params (bert_grouped_parameters named_parameters))
  ++ other_params named_parameters.
(** * Supporting lemmas *)

(** ** Paths of checkpoint files *)

Lemma string_app_length (s t : string) :
  String.length (s +:+ t) = (String.length s + String.length t)%nat.
Proof. induction s as [|c s IH]; simpl; [reflexivity | now rewrite IH]. Qed.

(** A common suffix can be cancelled. *)
Lemma string_app_inv_tail (s1 s2 t : string) :
  s1 +:+ t = s2 +:+ t -> s1 = s2.
Proof.
  revert s2. induction s1 as [|c s1 IH]; intros [|d s2] H; simpl in H.
  - reflexivity.
  - apply (f_equal String.length) in H.
    rewrite !string_app_length in H. simpl in H. lia.
  - apply (f_equal String.length) in H. simpl in H.
    rewrite !string_app_length in H. simpl in H. lia.
  - injection H as -> H. f_equal. now apply IH.
Qed.

Lemma checkpoint_file_name_inj (i j : Z) :
  checkpoint_file_name i = checkpoint_file_name j -> i = j.
Proof.
  unfold checkpoint_file_name. intros H.
  apply (inj (String.app "agent_state.iter")) in H.
  apply string_app_inv_tail in H.
  now apply (inj pretty) in H.
Qed.

Lemma checkpoint_file_name_relative (i : Z) :
  starts_with_slash (checkpoint_file_name i) = false.
Proof. reflexivity. Qed.

Lemma string_app_assoc (a b c : string) : (a +:+ b) +:+ c = a +:+ (b +:+ c).
Proof.
  induction a as [|x a IH]; [reflexivity|].
  change (String x ((a +:+ b) +:+ c) = String x (a +:+ b +:+ c)).
  now rewrite IH.
Qed.

Lemma os_path_join_relative (a b : string) :
  starts_with_slash b = false -> os_path_join a b = dir_prefix a +:+ b.
Proof.
  intros Hb. unfold os_path_join, dir_prefix. rewrite Hb.
  destruct (String.eqb a ""); [reflexivity|].
  destruct (ends_with_slash a); [reflexivity|].
  now rewrite string_app_assoc.
Qed.

Lemma model_save_path_inj (c : Config) (i j : Z) :
  model_save_path c i = model_save_path c j -> i = j.
Proof.
  unfold model_save_path.
  rewrite !os_path_join_relative by apply checkpoint_file_name_relative.
  intros H. apply (inj (String.app _)) in H.
  now apply checkpoint_file_name_inj.
Qed.

Lemma model_save_path_truthy (c : Config) (i : Z) :
  truthy (Some (model_save_path c i)) = true.
Proof.
  unfold model_save_path.
  rewrite os_path_join_relative by apply checkpoint_file_name_relative.
  simpl. destruct (dir_prefix (work_dir c)); reflexivity.
Qed.

(** From here on a checkpoint path is a name, not a string to compute. *)
Arguments model_save_path : simpl never.

(** ** Reasoning about the monad *)

Lemma bind_done {A B} (m : M A) (k : A -> M B) s a s1 :
  m s = (Done a, s1) -> bind m k s = k a s1.
Proof. unfold bind. now intros ->. Qed.

Lemma bind_raised {A B} (m : M A) (k : A -> M B) s e s1 :
  m s = (Raised e, s1) -> bind m k s = (Raised e, s1).
Proof. unfold bind. now intros ->. Qed.

Section Frames.
Context {A B C : Type}.

Lemma keeps_bind (f : Learner -> C) (m : M A) (k : A -> M B) :
    keeps f m -> (forall a, keeps f (k a)) -> keeps f (bind m k).
Proof.
    intros Hm Hk s. unfold bind. specialize (Hm s).
    destruct (m s) as [[a|e|] s1]; simpl in *; [|assumption..].
    now rewrite Hk.
Qed.

Lemma keeps_ret (f : Learner -> C) (a : A) : keeps f (ret a).
Proof. now intros s. Qed.

Lemma keeps_raise (f : Learner -> C) (e : exn) : keeps f (@raise A e).
Proof. now intros s. Qed.

Lemma keeps_block (f : Learner -> C) : keeps f (@block A).
Proof. now intros s. Qed.

Lemma keeps_lift (f : Learner -> C) (r : exn + A) : keeps f (lift r).
Proof. destruct r; now intros s. Qed.

Lemma emits_bind (P : event -> Prop) (m : M A) (k : A -> M B) :
    emits P m -> (forall a, emits P (k a)) -> emits P (bind m k).
Proof.
    intros Hm Hk s. unfold bind. destruct (Hm s) as (evs & Ht & HP).
    destruct (m s) as [[a|e|] s1]; simpl in *; eauto.
    destruct (Hk a s1) as (evs' & Ht' & HP').
    exists (evs ++ evs'). split.
    - now rewrite Ht', Ht, app_assoc.
    - now apply Forall_app.
Qed.

Lemma emits_ret (P : event -> Prop) (a : A) : emits P (ret a).
Proof. intros s. exists []. simpl. split; [now rewrite app_nil_r | constructor]. Qed.

Lemma emits_raise (P : event -> Prop) (e : exn) : emits P (@raise A e).
Proof. intros s. exists []. simpl. split; [now rewrite app_nil_r | constructor]. Qed.

Lemma emits_block (P : event -> Prop) : emits P (@block A).
Proof. intros s. exists []. simpl. split; [now rewrite app_nil_r | constructor]. Qed.

Lemma emits_lift (P : event -> Prop) (r : exn + A) : emits P (lift r).
Proof. destruct r; [apply emits_raise | apply emits_ret]. Qed.
End Frames.

Lemma keeps_get_state {C} (f : Learner -> C) : keeps f get_state.
Proof. now intros s. Qed.

Lemma keeps_modify {C} (f : Learner -> C) (g : Learner -> Learner) :
  (forall s, f (g s) = f s) -> keeps f (modify g).
Proof. intros H s. apply H. Qed.

Lemma emits_get_state (P : event -> Prop) : emits P get_state.
Proof. intros s. exists []. simpl. split; [now rewrite app_nil_r | constructor]. Qed.

Lemma emits_modify (P : event -> Prop) (g : Learner -> Learner) :
  (forall s, trace (g s) = trace s) -> emits P (modify g).
Proof. intros H s. exists []. simpl. split; [now rewrite H, app_nil_r | constructor]. Qed.

Lemma emits_emit (P : event -> Prop) (e : event) : P e -> emits P (emit e).
Proof. intros H s. exists [e]. simpl. split; [reflexivity | now constructor]. Qed.

Lemma emits_weaken {A} (P Q : event -> Prop) (m : M A) :
  (forall e, P e -> Q e) -> emits P m -> emits Q m.
Proof.
  intros HPQ Hm s. destruct (Hm s) as (evs & Ht & HP).
  exists evs. split; [assumption|]. eapply Forall_impl; eauto.
Qed.

Lemma never_blocks_bind {A B} (m : M A) (k : A -> M B) :
  never_blocks m -> (forall a, never_blocks (k a)) -> never_blocks (bind m k).
Proof.
  intros Hm Hk s. unfold bind. specialize (Hm s).
  destruct (m s) as [[a|e|] s1]; simpl in *; [apply Hk | discriminate | done].
Qed.

Lemma never_blocks_ret {A} (a : A) : never_blocks (ret a).
Proof. intros s. discriminate. Qed.

Lemma never_blocks_raise {A} (e : exn) : never_blocks (@raise A e).
Proof. intros s. discriminate. Qed.

Lemma never_blocks_lift {A} (r : exn + A) : never_blocks (lift r).
Proof. destruct r; intros s; discriminate. Qed.

Lemma never_blocks_get_state : never_blocks get_state.
Proof. intros s. discriminate. Qed.

Lemma never_blocks_modify (g : Learner -> Learner) : never_blocks (modify g).
Proof. intros s. discriminate. Qed.

(** What a bind does, by the outcome of its first part. *)
Lemma bind_cases {A B} (m : M A) (k : A -> M B) (s : Learner) :
  (exists a s1, m s = (Done a, s1) /\ bind m k s = k a s1)
  \/ (exists e s1, m s = (Raised e, s1) /\ bind m k s = (Raised e, s1))
  \/ (exists s1, m s = (Blocked, s1) /\ bind m k s = (Blocked, s1)).
Proof.
  unfold bind. destruct (m s) as [[a|e|] s1]; eauto 6.
Qed.

(** The steps of a frame proof: split the binds, settle the primitives, and
    case on what a branch looks at. *)
Ltac frame_step :=
  match goal with
  | |- keeps _ (bind _ _) => apply keeps_bind; [|intros ?]
  | |- keeps _ (ret _) => apply keeps_ret
  | |- keeps _ (raise _) => apply keeps_raise
  | |- keeps _ block => apply keeps_block
  | |- keeps _ (lift _) => apply keeps_lift
  | |- keeps _ get_state => apply keeps_get_state
  | |- keeps _ (emit _) => apply keeps_modify; intros ?; reflexivity
  | |- keeps _ (modify _) => apply keeps_modify; intros ?; reflexivity
  | |- emits _ (bind _ _) => apply emits_bind; [|intros ?]
  | |- emits _ (ret _) => apply emits_ret
  | |- emits _ (raise _) => apply emits_raise
  | |- emits _ block => apply emits_block
  | |- emits _ (lift _) => apply emits_lift
  | |- emits _ get_state => apply emits_get_state
  | |- emits _ (emit _) => apply emits_emit
  | |- emits _ (modify _) => apply emits_modify; intros ?; reflexivity
  | |- never_blocks (bind _ _) => apply never_blocks_bind; [|intros ?]
  | |- never_blocks (ret _) => apply never_blocks_ret
  | |- never_blocks (raise _) => apply never_blocks_raise
  | |- never_blocks (lift _) => apply never_blocks_lift
  | |- never_blocks get_state => apply never_blocks_get_state
  | |- never_blocks (emit _) => apply never_blocks_modify
  | |- never_blocks (modify _) => apply never_blocks_modify
  | |- never_blocks (match ?x with _ => _ end) => destruct x
  | |- never_blocks (let '(_, _) := ?x in _) => destruct x
  | |- keeps _ (match ?x with _ => _ end) => destruct x
  | |- emits _ (match ?x with _ => _ end) => destruct x
  | |- keeps _ (let '(_, _) := ?x in _) => destruct x
  | |- emits _ (let '(_, _) := ?x in _) => destruct x
  end.

(** ** Traces *)

(** Splits [l = pre ++ e :: post] for an explicit [l] into its cases. *)
Ltac split_trace H :=
  repeat match type of H with
         | _ :: _ = ?pre ++ _ :: _ =>
             destruct pre as [|? ?]; simpl in H;
             [injection H as <- ?|injection H as <- H]
         | [] = _ ++ _ :: _ => now destruct (app_cons_not_nil _ _ _ H)
         end.

(** ** Running a piece of the loop case by case *)

(** Case on a test of [E] that tests nothing else inside it. *)
Ltac case_innermost E :=
  match type of E with
  | context [match ?x with _ => _ end] =>
      lazymatch x with
      | context [match _ with _ => _ end] => fail
      | _ => destruct x eqn:?
      end
  end.

(** [E : m s = (r, s')] for an [m] unfolded down to the primitives: run it
    along every path and replace [r] and [s'] by what the path gives. *)
Ltac run_cases E :=
  unfold bind, modify, emit, add_scalar, lift, get_state, ret, raise, block in E;
  cbn in E; repeat (case_innermost E; cbn in E); injection E as <- <-.

(** Use the equations left by [run_cases] on the tests of the goal. *)
Ltac use_cases :=
  repeat match goal with
         | H : ?x = _ |- context [match ?x with _ => _ end] => rewrite H
         end.

(** Membership in an explicit list, case by case. *)
Ltac in_list H :=
  apply list_elem_of_In in H; simpl in H; intuition congruence.

(** ** Events of a run *)

Lemma events_of_eq {A} (m : M A) (s : Learner) (evs : list event) :
  trace (snd (m s)) = trace s ++ evs -> events_of m s = evs.
Proof. unfold events_of. intros ->. apply drop_app_length. Qed.

Lemma emits_trace {A} (P : event -> Prop) (m : M A) (s : Learner) :
  emits P m -> trace (snd (m s)) = trace s ++ events_of m s.
Proof.
  intros Hm. destruct (Hm s) as (evs & Ht & _).
  now rewrite (events_of_eq _ _ _ Ht).
Qed.

Lemma emits_events {A} (P : event -> Prop) (m : M A) (s : Learner) :
  emits P m -> Forall P (events_of m s).
Proof.
  intros Hm. destruct (Hm s) as (evs & Ht & HP).
  now rewrite (events_of_eq _ _ _ Ht).
Qed.

Lemma events_of_bind {A B} (P : event -> Prop) (m : M A) (k : A -> M B) s :
  emits P m -> (forall a, emits P (k a)) ->
  events_of (bind m k) s
  = events_of m s ++ match fst (m s) with
                     | Done a => events_of (k a) (snd (m s))
                     | _ => []
                     end.
Proof.
  intros Hm Hk. apply events_of_eq.
  pose proof (emits_trace P m s Hm) as Ht. unfold bind.
  destruct (m s) as [[a|e|] s1]; simpl in *.
  - rewrite (emits_trace P (k a) s1 (Hk a)), Ht. now rewrite app_assoc.
  - now rewrite app_nil_r.
  - now rewrite app_nil_r.
Qed.

Lemma count_events_app (f : event -> bool) (l1 l2 : list event) :
  count_events f (l1 ++ l2) = (count_events f l1 + count_events f l2)%nat.
Proof. unfold count_events. now rewrite List.filter_app, length_app. Qed.

Lemma count_events_none (f : event -> bool) (evs : list event) :
  Forall (fun e => f e = false) evs -> count_events f evs = 0%nat.
Proof.
  unfold count_events. induction 1 as [|e evs He _ IH]; simpl; [reflexivity|].
  now rewrite He.
Qed.

(** ** Hoare rules *)

Lemma hoare_bind {A B} (P : Learner -> Prop) (m : M A) (k : A -> M B)
    (R : outcome A -> Learner -> Prop) (Q : outcome B -> Learner -> Prop) :
  hoare P m R ->
  (forall a, hoare (R (Done a)) (k a) Q) ->
  (forall e s, R (Raised e) s -> Q (Raised e) s) ->
  (forall s, R Blocked s -> Q Blocked s) ->
  hoare P (bind m k) Q.
Proof.
  intros Hm Hk He Hb s HP. specialize (Hm s HP). unfold bind.
  destruct (m s) as [[a|e|] s1]; simpl in *; auto.
  now apply Hk.
Qed.

(** ** The phases of an iteration *)

Ltac frames := repeat frame_step.

Section Phases.
Context {Trajectory : Type}.
Variable agent : list Trajectory -> exn + list Q.
Variable qsize : Z -> option Z.
Variable torch_save_ok : string -> bool.
Variable shared_program_cache : option SharedProgramCache.
Variable config : Config.

Abbreviation forward_backward' := (forward_backward agent qsize config).
Abbreviation checkpoint_phase' :=
    (checkpoint_phase torch_save_ok shared_program_cache config).
Abbreviation program_cache_phase' := (program_cache_phase shared_program_cache config).
Abbreviation iteration_body' :=
    (iteration_body agent qsize torch_save_ok shared_program_cache config).
Abbreviation iteration' := (iteration agent qsize torch_save_ok shared_program_cache config).

Lemma loop_head_run (s : Learner) : loop_head s = (Done tt, after_loop_head s).
Proof.
  destruct s. unfold loop_head, zero_grad, bind, emit, modify, after_loop_head.
  cbn. now rewrite <- app_assoc.
Qed.

Lemma iteration_run batch s :
  iteration' batch s = iteration_body' batch (after_loop_head s).
Proof.
  unfold iteration. now rewrite (bind_done _ _ _ _ _ (loop_head_run s)).
Qed.

Lemma forward_backward_keeps ts : keeps checkpoint_view (forward_backward' ts).
Proof. unfold forward_backward, backward, clip_grad_norm, add_scalar. frames. Qed.

Lemma optimizer_update_keeps : keeps checkpoint_view (optimizer_update config).
Proof. unfold optimizer_update, optimizer_step. frames. Qed.

Lemma bookkeeping_keeps l (ts : list (@TrainingSample Trajectory)) info :
    keeps checkpoint_view (bookkeeping config l ts info).
Proof. unfold bookkeeping, add_scalar. frames. Qed.

Lemma program_cache_phase_keeps : keeps checkpoint_view program_cache_phase'.
Proof. unfold program_cache_phase. frames. Qed.

Lemma forward_backward_emits ts :
    emits (fun e => is_any_step e = false /\ is_reset e = false
                    /\ is_checkpoint_event e = false /\ is_zero_grad e = false)
          (forward_backward' ts).
Proof.
    unfold forward_backward, backward, clip_grad_norm, add_scalar.
    frames; repeat split.
Qed.

Lemma optimizer_update_emits :
    emits (fun e => is_clip e = false /\ is_backward e = false
                    /\ is_checkpoint_event e = false /\ is_zero_grad e = false)
          (optimizer_update config).
Proof. unfold optimizer_update, optimizer_step. frames; repeat split. Qed.

Lemma bookkeeping_emits l (ts : list (@TrainingSample Trajectory)) info :
    emits (fun e => is_gradient_event e = false /\ is_reset e = false
                    /\ is_clip e = false /\ is_checkpoint_event e = false)
          (bookkeeping config l ts info).
Proof. unfold bookkeeping, add_scalar. frames; repeat split. Qed.

Lemma checkpoint_phase_emits :
    emits (fun e => is_gradient_event e = false /\ is_reset e = false
                    /\ is_clip e = false)
          checkpoint_phase'.
Proof.
    unfold checkpoint_phase, update_model_to_actors, log_program_cache_stat,
      push_new_model, torch_save, os_remove, write_slot, add_scalar.
    frames; repeat split.
Qed.

Lemma program_cache_phase_emits :
    emits (fun e => is_gradient_event e = false /\ is_reset e = false
                    /\ is_clip e = false /\ is_checkpoint_event e = false)
          program_cache_phase'.
Proof. unfold program_cache_phase. frames; repeat split. Qed.

(** The forward and backward pass when it goes through. *)
Lemma forward_backward_ok (ts : list (@TrainingSample Trajectory)) loss s :
  forward_ok agent config ts loss ->
  forward_backward' ts s
  = (Done loss,
     with_trace (trace s ++ queue_size_events qsize (train_iter s)
                 ++ [EvAddScalar "parser_loss" loss (train_iter s);
                     EvBackward loss;
                     EvClipGradNorm (other_grad s ++ [loss])])
       (with_grads (other_grad s ++ [loss]) (bert_grad s ++ [loss]) s)).
Proof.
  intros (lp & Hagent & Hloss & Hoff).
  destruct (forward_backward' ts s) as [r s'] eqn:E.
  unfold forward_backward, backward, clip_grad_norm, queue_size_events in *.
  rewrite Hagent, Hoff in E.
  destruct s as [q slot cur an ti cl ce oo bo og bg en fs tr].
  run_cases E; simplify_eq; cbn; use_cases; rewrite <- ?app_assoc; reflexivity.
Qed.

(** The optimizer phase: its events, and that it only fails on a zero
    accumulation count. *)
Lemma optimizer_update_events s :
  events_of (optimizer_update config) s
  = update_events config (train_iter s) (other_grad s) (bert_grad s).
Proof.
  apply events_of_eq.
  destruct (optimizer_update config s) as [r s'] eqn:E.
  unfold optimizer_update, optimizer_step, update_events in *.
  destruct s as [q slot cur an ti cl ce oo bo og bg en fs tr].
  run_cases E; cbn; use_cases; rewrite <- ?app_assoc, ?app_nil_r; reflexivity.
Qed.

Lemma optimizer_update_done s :
  gradient_accumulation_niter config <> 0 ->
  fst (optimizer_update config s) = Done tt.
Proof.
  intros HK.
  destruct (optimizer_update config s) as [r s'] eqn:E.
  unfold optimizer_update, optimizer_step, py_mod in E.
  destruct (decide (gradient_accumulation_niter config = 0)) as [|_]; [done|].
  destruct s as [q slot cur an ti cl ce oo bo og bg en fs tr].
  run_cases E; reflexivity.
Qed.

(** After the optimizer phase nothing touches gradients or optimizers. *)
Lemma after_update_emits l (ts : list (@TrainingSample Trajectory)) info :
  emits quiet (bookkeeping config l ts info ;;; checkpoint_phase' ;;; program_cache_phase').
Proof.
  apply emits_bind; [|intros _; apply emits_bind; [|intros _]].
  - eapply emits_weaken; [|apply bookkeeping_emits]. unfold quiet. tauto.
  - eapply emits_weaken; [|apply checkpoint_phase_emits]. unfold quiet. tauto.
  - eapply emits_weaken; [|apply program_cache_phase_emits]. unfold quiet. tauto.
Qed.

(** The events of an iteration whose forward pass goes through: the two
    [zero_grad], the logged scalars, backward, clipping, the optimizer
    phase, and a quiet rest. *)
Lemma iteration_events (ts : list (@TrainingSample Trajectory)) info loss s :
  forward_ok agent config ts loss ->
  exists rest,
    events_of (iteration' (ts, info)) s
    = [EvZeroGrad Other; EvZeroGrad Bert]
      ++ queue_size_events qsize (train_iter s + 1)
      ++ [EvAddScalar "parser_loss" loss (train_iter s + 1);
          EvBackward loss; EvClipGradNorm [loss]]
      ++ update_events config (train_iter s + 1) [loss] [loss]
      ++ rest
    /\ Forall quiet rest.
Proof.
  intros Hok.
  set (after := bookkeeping config loss ts info ;;;
                checkpoint_phase' ;;; program_cache_phase').
  assert (Hafter : emits (fun _ => True) after).
  { eapply emits_weaken; [|apply after_update_emits]. done. }
  assert (Hupd : emits (fun _ => True) (optimizer_update config)).
  { eapply emits_weaken; [|apply optimizer_update_emits]. done. }
  set (s1 := after_loop_head s).
  pose proof (forward_backward_ok ts loss s1 Hok) as Hfb.
  set (s2 := with_trace _ _) in Hfb.
  exists (match fst (optimizer_update config s2) with
          | Done _ => events_of after (snd (optimizer_update config s2))
          | _ => []
          end).
  split.
  - apply events_of_eq. rewrite iteration_run. fold s1.
    unfold iteration_body. rewrite (bind_done _ _ _ _ _ Hfb).
    rewrite (emits_trace (fun _ => True) _ s2)
      by (apply emits_bind; [apply Hupd | intros _; apply Hafter]).
    rewrite (events_of_bind (fun _ => True)) by (try intros _; assumption).
    rewrite optimizer_update_events.
    subst s2 s1. destruct s. cbn. rewrite <- !app_assoc. reflexivity.
  - destruct (fst (optimizer_update config s2)); try constructor.
    apply (emits_events quiet), after_update_emits.
Qed.

(** The loop, one iteration at a time. *)
Lemma train_loop_cons batch rest s :
  train_iter s < max_train_step config ->
  train_loop agent qsize torch_save_ok shared_program_cache config (batch :: rest) s
  = bind (iteration' batch)
      (fun _ => train_loop agent qsize torch_save_ok shared_program_cache config rest) s.
Proof.
  intros Hlt. apply Z.ltb_lt in Hlt. unfold iteration.
  cbn [train_loop]. unfold bind at 1. unfold get_state at 1. rewrite Hlt.
  unfold bind at 1 3 4. rewrite loop_head_run. reflexivity.
Qed.

Lemma train_loop_nil s :
  train_iter s < max_train_step config ->
  train_loop agent qsize torch_save_ok shared_program_cache config [] s
  = (Blocked, after_loop_head s).
Proof.
  intros Hlt. apply Z.ltb_lt in Hlt.
  cbn [train_loop]. unfold bind at 1. unfold get_state at 1. rewrite Hlt.
  unfold bind. rewrite loop_head_run. reflexivity.
Qed.

Lemma train_loop_done inputs s :
  max_train_step config <= train_iter s ->
  train_loop agent qsize torch_save_ok shared_program_cache config inputs s
  = (Done tt, s).
Proof.
  intros Hge. apply Z.ltb_ge in Hge.
  destruct inputs; cbn [train_loop]; unfold bind at 1; unfold get_state at 1;
    now rewrite Hge.
Qed.

Lemma quiet_not_step g e : quiet e -> is_step g e = false.
Proof.
  intros (Hg & _ & _). unfold is_gradient_event in Hg.
  apply orb_false_iff in Hg as [_ Hs]. now destruct e as [| | | |[] ?| | | | | |], g.
Qed.

Lemma quiet_not_reset e : quiet e -> is_reset e = false.
Proof. now intros (_ & Hr & _). Qed.

Lemma quiet_not_clip e : quiet e -> is_clip e = false.
Proof. now intros (_ & _ & Hc). Qed.

Lemma count_events_quiet (f : event -> bool) (evs : list event) :
  (forall e, quiet e -> f e = false) -> Forall quiet evs ->
  count_events f evs = 0%nat.
Proof.
  intros Hf Hq. apply count_events_none. eapply Forall_impl; eauto.
Qed.

Lemma count_queue_size_events (f : event -> bool) t :
  (forall tag v step, f (EvAddScalar tag v step) = false) ->
  count_events f (queue_size_events qsize t) = 0%nat.
Proof.
  intros Hf. unfold queue_size_events, count_events.
  destruct (qsize t); simpl; [now rewrite Hf | reflexivity].
Qed.

Lemma checkpoint_phase_keeps_train_iter : keeps train_iter checkpoint_phase'.
Proof.
  unfold checkpoint_phase, update_model_to_actors, log_program_cache_stat,
    push_new_model, torch_save, os_remove, write_slot, add_scalar.
  frames.
Qed.

Lemma keeps_view_train_iter {A} (m : M A) :
  keeps checkpoint_view m -> keeps train_iter m.
Proof. intros Hm s. specialize (Hm s). unfold checkpoint_view in Hm. congruence. Qed.

(** Whatever happens in the body, the counter stays where the head of the
    loop put it. *)
Lemma iteration_advances_counter batch s :
  train_iter (snd (iteration' batch s)) = train_iter s + 1.
Proof.
  rewrite iteration_run.
  assert (Hk : keeps train_iter (iteration_body' batch)).
  { destruct batch as [ts info]. unfold iteration_body.
    apply keeps_bind; [|intros l; apply keeps_bind; [|intros _;
      apply keeps_bind; [|intros _; apply keeps_bind; [|intros _]]]].
    - apply keeps_view_train_iter, forward_backward_keeps.
    - apply keeps_view_train_iter, optimizer_update_keeps.
    - apply keeps_view_train_iter, bookkeeping_keeps.
    - apply checkpoint_phase_keeps_train_iter.
    - apply keeps_view_train_iter, program_cache_phase_keeps. }
  rewrite Hk. now destruct s.
Qed.

(** The loss of an empty batch, when the shapes let it through, is [nan]. *)
Lemma batch_loss_empty lp loss :
  batch_loss config lp [] = inr loss -> loss = NaN.
Proof.
  unfold batch_loss, tensor_mul.
  destruct lp as [|x [|y lp]]; simpl; intros H; simplify_eq;
    now destruct (1 <? gradient_accumulation_niter config).
Qed.

Lemma zip_with_nonempty {A B C} (f : A -> B -> C) (l : list A) (k : list B) :
  length l = length k -> l <> [] -> zip_with f l k <> [].
Proof. destruct l, k; simpl; intros; congruence. Qed.

(** The loss of the source is the loss of the specification. *)
Lemma batch_loss_spec (lp ws : list Q) :
  length lp = length ws -> lp <> [] ->
  exists q,
    batch_loss config lp ws = inr (Fin q)
    /\ Qeq q (spec_loss (gradient_accumulation_niter config) lp ws).
Proof.
  intros Hlen Hne. unfold batch_loss, tensor_mul, spec_loss.
  destruct (decide (length lp = length ws)) as [_|]; [|done].
  pose proof (zip_with_nonempty Qmult lp ws Hlen Hne) as Hz.
  destruct (zip_with Qmult lp ws) as [|x w] eqn:Hw; [done|].
  cbn [tensor_mean sneg].
  destruct (1 <? gradient_accumulation_niter config) eqn:HK; cbn [sdiv_int].
  - eexists. split; [reflexivity|]. unfold Qdiv. ring.
  - eexists. split; [reflexivity|]. reflexivity.
Qed.

(** The re-publication branch while nothing has been saved yet. *)
Lemma checkpoint_phase_republish_none s :
  current_model_path s = None ->
  save_every_niter config <> 0 ->
  train_iter s mod save_every_niter config <> 0 ->
  checkpoint_phase' s
  = (Done tt,
     with_trace (trace s ++ [EvQueuePut None])
       (with_checkpoint_queue (checkpoint_queue s ++ [None]) s)).
Proof.
  intros Hcur Hsave Hmod.
  destruct (checkpoint_phase' s) as [r s'] eqn:E.
  unfold checkpoint_phase, py_mod, push_new_model in E.
  destruct (decide (save_every_niter config = 0)) as [|_]; [done|].
  apply Z.eqb_neq in Hmod.
  destruct s as [q slot cur an ti cl ce oo bo og bg en fs tr].
  simpl in Hcur, Hmod. subst cur.
  unfold lift, bind, get_state, ret in E. cbn in E. rewrite Hmod in E.
  run_cases E. reflexivity.
Qed.

Lemma bookkeeping_done l (ts : list (@TrainingSample Trajectory)) info s :
  entropy_reg_on config = false ->
  fst (bookkeeping config l ts info s) = Done tt.
Proof.
  intros Hoff.
  destruct (bookkeeping config l ts info s) as [r s'] eqn:E.
  unfold bookkeeping in E. rewrite Hoff in E.
  destruct s as [q slot cur an ti cl ce oo bo og bg en fs tr].
  run_cases E; reflexivity.
Qed.

(** An iteration whose forward pass goes through arrives at the
    checkpoint phase with the checkpoint state it started from. *)
Lemma iteration_reaches_checkpoint_phase
    (ts : list (@TrainingSample Trajectory)) info loss s :
  forward_ok agent config ts loss ->
  gradient_accumulation_niter config <> 0 ->
  exists s4,
    iteration' (ts, info) s = (checkpoint_phase' ;;; program_cache_phase') s4
    /\ checkpoint_view s4 = checkpoint_view (after_loop_head s).
Proof.
  intros Hok HK.
  pose proof (forward_backward_ok ts loss (after_loop_head s) Hok) as Hfb.
  set (s2 := with_trace _ _) in Hfb.
  destruct (optimizer_update config s2) as [r3 s3] eqn:E3.
  pose proof (optimizer_update_done s2 HK) as H3. rewrite E3 in H3. simpl in H3.
  pose proof (optimizer_update_keeps s2) as V3. rewrite E3 in V3. simpl in V3.
  destruct (bookkeeping config loss ts info s3) as [r4 s4] eqn:E4.
  pose proof (bookkeeping_done loss ts info s3) as H4.
  destruct Hok as (_ & _ & _ & Hoff). specialize (H4 Hoff).
  rewrite E4 in H4. simpl in H4.
  pose proof (bookkeeping_keeps loss ts info s3) as V4. rewrite E4 in V4. simpl in V4.
  subst r3 r4. exists s4. split.
  - rewrite iteration_run. unfold iteration_body.
    rewrite (bind_done _ _ _ _ _ Hfb), (bind_done _ _ _ _ _ E3).
    now rewrite (bind_done _ _ _ _ _ E4).
  - rewrite V4, V3. subst s2. now destruct s.
Qed.

(** The publication neither blocks nor moves the counter. *)
Lemma update_model_to_actors_never_blocks t :
  never_blocks (update_model_to_actors torch_save_ok config t).
Proof.
  unfold update_model_to_actors, push_new_model, torch_save, os_remove,
    write_slot.
  frames.
Qed.

Lemma update_model_to_actors_keeps_train_iter t :
  keeps train_iter (update_model_to_actors torch_save_ok config t).
Proof.
  unfold update_model_to_actors, push_new_model, torch_save, os_remove,
    write_slot.
  frames.
Qed.

(** The statistics of the cache, by what the cache reports. *)
Lemma log_program_cache_stat_zero cache s :
  num_envs (stat cache (train_iter s)) = 0 ->
  log_program_cache_stat (Some cache) s = (Raised ZeroDivisionError, s).
Proof.
  intros Hz. unfold log_program_cache_stat, py_truediv.
  unfold bind at 1. unfold get_state at 1. cbv beta iota. rewrite Hz.
  reflexivity.
Qed.

Lemma log_program_cache_stat_nonzero cache s :
  num_envs (stat cache (train_iter s)) <> 0 ->
  log_program_cache_stat (Some cache) s
  = (Done tt,
     with_trace
       (trace s ++
        [EvAddScalar "avg_num_programs_in_cache"
           (Fin (Qdiv (inject_Z (num_entries (stat cache (train_iter s))))
                      (inject_Z (num_envs (stat cache (train_iter s))))))
           (train_iter s);
         EvAddScalar "num_programs_in_cache"
           (Fin (inject_Z (num_entries (stat cache (train_iter s)))))
           (train_iter s)]) s).
Proof.
  intros Hnz. unfold log_program_cache_stat, py_truediv.
  unfold bind at 1. unfold get_state at 1. cbv beta iota.
  destruct (decide (num_envs (stat cache (train_iter s)) = 0)) as [|_]; [done|].
  destruct s. unfold add_scalar, emit, modify, lift, bind, get_state, ret.
  cbn. now rewrite <- app_assoc.
Qed.

(** ** The checkpoint invariant *)

Lemma checkpoint_inv_ext (b b' : Z) (s s' : Learner) :
  current_model_path s' = current_model_path s -> files s' = files s ->
  b <= b' -> checkpoint_inv config b s -> checkpoint_inv config b' s'.
Proof.
  unfold checkpoint_inv. intros -> -> Hb.
  destruct (current_model_path s); [|done].
  intros (i & Hi & Hp & Ho). exists i. split; [lia | done].
Qed.

Lemma checkpoint_view_eq (s s' : Learner) :
  checkpoint_view s' = checkpoint_view s ->
  current_model_path s' = current_model_path s
  /\ files s' = files s /\ train_iter s' = train_iter s.
Proof.
  intros H. unfold checkpoint_view in H.
  split; [|split].
  - exact (f_equal (fun v => fst (fst (fst (fst v)))) H).
  - exact (f_equal (fun v => snd (fst (fst (fst v)))) H).
  - exact (f_equal (fun v => snd (fst (fst v))) H).
Qed.

(** A publication that does not raise makes the checkpoint of its
    iteration the current one and the only one on the disk. *)
Lemma update_model_to_actors_rotates (t b : Z) (s : Learner) :
  b < t -> checkpoint_inv config b s ->
  is_raised (fst (update_model_to_actors torch_save_ok config t s)) = false ->
  current_model_path (snd (update_model_to_actors torch_save_ok config t s))
  = Some (model_save_path config t)
  /\ only_checkpoint_file config t
       (files (snd (update_model_to_actors torch_save_ok config t s))).
Proof.
  intros Hb Hinv.
  destruct (update_model_to_actors torch_save_ok config t s) as [r s'] eqn:E.
  unfold update_model_to_actors, torch_save, push_new_model, write_slot,
    os_remove in E.
  rewrite model_save_path_truthy in E.
  set (path := model_save_path config t) in *.
  destruct s as [q slot cur an ti cl ce oo bo og bg en fs tr].
  unfold checkpoint_inv in Hinv. simpl in Hinv.
  assert (Hold : forall old, cur = Some old -> truthy (Some old) = true).
  { intros old ->. destruct Hinv as (i & _ & -> & _).
    apply model_save_path_truthy. }
  run_cases E; simpl; intros Hr; try discriminate Hr; (split; [reflexivity|]).
  all: try match goal with
           | H : truthy ?c = false |- _ =>
               destruct c as [old|];
               [rewrite Hold in H by reflexivity; discriminate H|]
           end.
  all: lazymatch goal with
       | |- only_checkpoint_file _ _ ((_ ∪ _) ∖ _) =>
           destruct Hinv as (i & Hi & -> & Ho); intros j;
           rewrite elem_of_difference, elem_of_union, !elem_of_singleton;
           unfold path; split;
           [ intros [[Hj|Hj] Hne];
             [now apply model_save_path_inj in Hj
             |apply Ho in Hj; now subst j]
           | intros ->; split; [now left|];
             intros Heq; apply model_save_path_inj in Heq; lia ]
       | |- only_checkpoint_file _ _ (_ ∪ _) =>
           intros j; rewrite elem_of_union, elem_of_singleton;
           unfold path; split;
           [ intros [Hj|Hj];
             [now apply model_save_path_inj in Hj | now apply Hinv in Hj]
           | intros ->; now left ]
       end.
Qed.

Lemma push_new_model_keeps p :
  keeps (fun s => (current_model_path s, files s, train_iter s)) (push_new_model p).
Proof. unfold push_new_model, write_slot. frames. Qed.

Lemma log_program_cache_stat_keeps :
  keeps checkpoint_view (log_program_cache_stat shared_program_cache).
Proof. unfold log_program_cache_stat, add_scalar. frames. Qed.

(** The checkpoint phase takes the invariant of the iterations before to
    the invariant of this iteration, unless it raises. *)
Lemma checkpoint_phase_inv :
  hoare (fun s => checkpoint_inv config (train_iter s - 1) s)
        checkpoint_phase'
        (unless_raised (fun s => checkpoint_inv config (train_iter s) s)).
Proof.
  intros s Hinv. unfold unless_raised.
  destruct (checkpoint_phase' s) as [r' s'] eqn:E. simpl.
  unfold checkpoint_phase in E.
  unfold bind at 1 in E. unfold get_state at 1 in E. cbv beta iota in E.
  destruct (py_mod (train_iter s) (save_every_niter config)) as [e|r];
    unfold bind at 1 in E; unfold lift at 1 in E;
    [injection E as <- <-; discriminate|].
  unfold ret at 1 in E. cbv beta iota in E.
  destruct (r =? 0).
  - destruct (float_div (cum_loss s) (cum_examples s)) as [e|avg];
      unfold bind at 1 in E; unfold lift at 1 in E;
      [injection E as <- <-; discriminate|].
    unfold ret at 1 in E. cbv beta iota in E.
    unfold bind at 1 in E. unfold modify at 1 in E. cbv beta iota in E.
    set (s2 := with_cum (Fin 0) 0 s) in E.
    assert (Hinv2 : checkpoint_inv config (train_iter s - 1) s2).
    { eapply checkpoint_inv_ext; [| |reflexivity|exact Hinv]; now destruct s. }
    pose proof (update_model_to_actors_rotates (train_iter s) (train_iter s - 1)
                  s2 ltac:(lia) Hinv2) as Hrot.
    pose proof (update_model_to_actors_keeps_train_iter (train_iter s) s2) as Hti.
    destruct (bind_cases (update_model_to_actors torch_save_ok config (train_iter s))
                (fun _ => log_program_cache_stat shared_program_cache) s2)
      as [(a & s3 & H3 & Hb)|[(e & s3 & _ & Hb)|(s3 & H3 & _)]].
    + rewrite Hb in E. cbv beta in E.
      rewrite H3 in Hrot, Hti. simpl in Hrot, Hti.
      destruct (Hrot eq_refl) as (Hcur & Honly).
      pose proof (log_program_cache_stat_keeps s3) as Hv.
      rewrite E in Hv. apply checkpoint_view_eq in Hv as (Hv1 & Hv2 & Hv3).
      simpl in Hv1, Hv2, Hv3.
      intros _. unfold checkpoint_inv. rewrite Hv1, Hv2, Hv3, Hcur.
      assert (Ht2 : train_iter s2 = train_iter s) by (subst s2; now destruct s).
      exists (train_iter s).
      split; [lia | split; [reflexivity | exact Honly]].
    + rewrite Hb in E. injection E as <- <-. discriminate.
    + pose proof (update_model_to_actors_never_blocks (train_iter s) s2) as Hn.
      rewrite H3 in Hn. done.
  - intros _. pose proof (push_new_model_keeps (current_model_path s) s) as Hk.
    rewrite E in Hk. simpl in Hk.
    pose proof (f_equal (fun v => fst (fst v)) Hk) as Hk1.
    pose proof (f_equal (fun v => snd (fst v)) Hk) as Hk2.
    pose proof (f_equal snd Hk) as Hk3. simpl in Hk1, Hk2, Hk3.
    eapply checkpoint_inv_ext; [exact Hk1|exact Hk2| |exact Hinv].
    rewrite Hk3. lia.
Qed.

(** A phase that keeps the checkpoint view keeps the invariant, with the
    bound at the counter or one below it. *)
Lemma inv_keeps {A} (d : Z) (m : M A) :
  keeps checkpoint_view m ->
  hoare (fun s => checkpoint_inv config (train_iter s - d) s) m
        (fun _ s => checkpoint_inv config (train_iter s - d) s).
Proof.
  intros Hm s Hinv.
  destruct (checkpoint_view_eq _ _ (Hm s)) as (Hc & Hf & Ht).
  eapply checkpoint_inv_ext; [exact Hc|exact Hf| |exact Hinv].
  rewrite Ht. lia.
Qed.

Lemma inv_body_end s :
  checkpoint_inv config (train_iter s - 1) s ->
  checkpoint_inv config (train_iter s) s.
Proof. apply checkpoint_inv_ext; [reflexivity..|lia]. Qed.

(** The body of an iteration takes the invariant of the iterations before
    to the invariant of this iteration, unless it raises. *)
Lemma iteration_body_inv batch :
  hoare (fun s => checkpoint_inv config (train_iter s - 1) s)
        (iteration_body' batch)
        (unless_raised (fun s => checkpoint_inv config (train_iter s) s)).
Proof.
  destruct batch as [ts info]. unfold iteration_body.
  eapply hoare_bind; [apply (inv_keeps 1), forward_backward_keeps| |..].
  2:{ intros e s _ Hr. discriminate Hr. }
  2:{ intros s Hinv _. now apply inv_body_end. }
  intros loss.
  eapply hoare_bind; [apply (inv_keeps 1), optimizer_update_keeps| |..].
  2:{ intros e s _ Hr. discriminate Hr. }
  2:{ intros s Hinv _. now apply inv_body_end. }
  intros ?.
  eapply hoare_bind; [apply (inv_keeps 1), bookkeeping_keeps| |..].
  2:{ intros e s _ Hr. discriminate Hr. }
  2:{ intros s Hinv _. now apply inv_body_end. }
  intros ?.
  eapply hoare_bind; [apply checkpoint_phase_inv| |..].
  2:{ intros e s _ Hr. discriminate Hr. }
  2:{ intros s Hinv. exact Hinv. }
  intros a' s Hinv _.
  pose proof (inv_keeps 0 program_cache_phase'
                program_cache_phase_keeps) as Hk.
  unfold hoare in Hk. specialize (Hk s). cbv beta in Hk.
  rewrite !Z.sub_0_r in Hk. now apply Hk, Hinv.
Qed.

(** The invariant of the loop. *)
Lemma train_loop_inv inputs :
  hoare (fun s => checkpoint_inv config (train_iter s) s)
        (train_loop agent qsize torch_save_ok shared_program_cache config inputs)
        (unless_raised (fun s => checkpoint_inv config (train_iter s) s)).
Proof.
  induction inputs as [|batch rest IH]; intros s Hinv.
  - destruct (Z.lt_ge_cases (train_iter s) (max_train_step config)) as [Hlt|Hge].
    + rewrite train_loop_nil by assumption. intros _. simpl.
      eapply checkpoint_inv_ext; [| | |exact Hinv]; try (now destruct s).
      destruct s; simpl; lia.
    + rewrite train_loop_done by assumption. now intros _.
  - destruct (Z.lt_ge_cases (train_iter s) (max_train_step config)) as [Hlt|Hge].
    2:{ rewrite train_loop_done by assumption. now intros _. }
    rewrite train_loop_cons by assumption.
    assert (Hbody : checkpoint_inv config
                      (train_iter (after_loop_head s) - 1) (after_loop_head s)).
    { eapply checkpoint_inv_ext; [| | |exact Hinv]; try (now destruct s).
      destruct s; simpl; lia. }
    pose proof (iteration_body_inv batch (after_loop_head s) Hbody) as Hit.
    rewrite <- iteration_run in Hit.
    destruct (bind_cases (iteration' batch)
                (fun _ => train_loop agent qsize torch_save_ok
                            shared_program_cache config rest) s)
      as [(a & s1 & H1 & ->)|[(e & s1 & H1 & ->)|(s1 & H1 & ->)]].
    + rewrite H1 in Hit. apply IH. now apply Hit.
    + intros Hr. discriminate Hr.
    + rewrite H1 in Hit. exact Hit.
Qed.

End Phases.

(** * The loop, the publications and the checkpoint protocol *)

(** ** The loop and its counter *)

Section LoopFacts.
Context {Trajectory : Type}.
Variable agent : list Trajectory -> exn + list Q.
Variable qsize : Z -> option Z.
Variable torch_save_ok : string -> bool.
Variable shared_program_cache : option SharedProgramCache.
Variable config : Config.

Abbreviation loop := (train_loop agent qsize torch_save_ok shared_program_cache config).
Abbreviation iter := (iteration agent qsize torch_save_ok shared_program_cache config).

Lemma forward_backward_never_blocks ts :
  never_blocks (forward_backward agent qsize config ts).
Proof. unfold forward_backward, backward, clip_grad_norm, add_scalar. frames. Qed.

Lemma optimizer_update_never_blocks : never_blocks (optimizer_update config).
Proof. unfold optimizer_update, optimizer_step. frames. Qed.

Lemma bookkeeping_never_blocks l (ts : list (@TrainingSample Trajectory)) info :
  never_blocks (bookkeeping config l ts info).
Proof. unfold bookkeeping, add_scalar. frames. Qed.

Lemma checkpoint_phase_never_blocks :
  never_blocks (checkpoint_phase torch_save_ok shared_program_cache config).
Proof.
  unfold checkpoint_phase, update_model_to_actors, log_program_cache_stat,
    push_new_model, torch_save, os_remove, write_slot, add_scalar.
  frames.
Qed.

Lemma program_cache_phase_never_blocks :
  never_blocks (program_cache_phase shared_program_cache config).
Proof. unfold program_cache_phase. frames. Qed.

(** Only the wait on the train queue blocks: an iteration that has its
    batch does not. *)
Lemma iteration_never_blocks batch : never_blocks (iter batch).
Proof.
  unfold iteration, iteration_body. destruct batch as [ts info].
  apply never_blocks_bind; [|intros _].
  { unfold loop_head, zero_grad. frames. }
  apply never_blocks_bind; [apply forward_backward_never_blocks|intros l].
  apply never_blocks_bind; [apply optimizer_update_never_blocks|intros _].
  apply never_blocks_bind; [apply bookkeeping_never_blocks|intros _].
  apply never_blocks_bind; [apply checkpoint_phase_never_blocks|intros _].
  apply program_cache_phase_never_blocks.
Qed.

Lemma train_loop_counter (inputs : list (@SampleBatch Trajectory)) (s : Learner) :
  let n := Z.of_nat (length inputs) in
  let s' := snd (loop inputs s) in
  match fst (loop inputs s) with
  | Done _ =>
      train_iter s' = Z.max (train_iter s) (max_train_step config)
      /\ max_train_step config - train_iter s <= n
  | Blocked =>
      train_iter s' = train_iter s + n + 1
      /\ train_iter s + n < max_train_step config
  | Raised _ =>
      train_iter s < train_iter s' <= train_iter s + n
      /\ train_iter s' <= max_train_step config
  end.
Proof.
  revert s. induction inputs as [|batch rest IH]; intros s; cbn zeta.
  - destruct (Z.lt_ge_cases (train_iter s) (max_train_step config)) as [Hlt|Hge].
    + rewrite train_loop_nil by assumption. destruct s; simpl in *. lia.
    + rewrite train_loop_done by assumption. simpl. lia.
  - destruct (Z.lt_ge_cases (train_iter s) (max_train_step config)) as [Hlt|Hge].
    2:{ rewrite train_loop_done by assumption. simpl. lia. }
    rewrite train_loop_cons by assumption.
    pose proof (iteration_advances_counter agent qsize torch_save_ok
                  shared_program_cache config batch s) as Hadv.
    assert (Hlen : Z.of_nat (length (batch :: rest)) = Z.of_nat (length rest) + 1).
    { cbn [length]. lia. }
    rewrite Hlen. clear Hlen.
    destruct (bind_cases (iter batch) (fun _ => loop rest) s)
      as [(a & s1 & H1 & ->)|[(e & s1 & H1 & ->)|(s1 & H1 & ->)]];
      rewrite H1 in Hadv; cbn [fst snd] in Hadv |- *.
    + specialize (IH s1). cbn zeta in IH.
      destruct (fst (loop rest s1)); rewrite Hadv in IH; lia.
    + lia.
    + pose proof (iteration_never_blocks batch s) as Hn. rewrite H1 in Hn. done.
Qed.

End LoopFacts.

(** ** Publications *)

Section Publication.
Variable torch_save_ok : string -> bool.
Variable config : Config.

Abbreviation update := (update_model_to_actors torch_save_ok config).

(** What a publication that does not raise has done. *)
Lemma update_model_to_actors_done (t : Z) (s : Learner) :
  is_raised (fst (update t s)) = false ->
  let path := model_save_path config t in
  let s' := snd (update t s) in
  fst (update t s) = Done tt
  /\ current_model_path s' = Some path
  /\ eval_msg_val s' = Some path
  /\ checkpoint_queue s' = checkpoint_queue s ++ [Some path]
  /\ files s' = ({[path]} ∪ files s) ∖ stale_files (current_model_path s)
  /\ trace s' = trace s ++ [EvTorchSave path; EvQueuePut (Some path); EvSlotWrite path]
                        ++ removal_events (current_model_path s)
  /\ (forall old, stale_path (current_model_path s) = Some old ->
                  old ∈ {[path]} ∪ files s).
Proof.
  intros Hr path s'. subst s'.
  destruct (update t s) as [r s'] eqn:E.
  unfold update_model_to_actors, torch_save, push_new_model, write_slot,
    os_remove in E.
  rewrite model_save_path_truthy in E. fold path in E.
  destruct s as [q slot cur an ti cl ce oo bo og bg en fs tr].
  unfold stale_files, removal_events, stale_path.
  run_cases E; simpl in Hr; try discriminate Hr; simpl.
  all: try match goal with H : truthy None = true |- _ => discriminate H end.
  all: repeat match goal with
              | H : truthy _ = _ |- _ =>
                  first [rewrite H | simpl in H; rewrite H]; clear H
              end.
  all: rewrite <- ?app_assoc; simpl.
  all: repeat split; try reflexivity; try (rewrite difference_empty_L; reflexivity).
  all: intros old Ho; simplify_eq; assumption.
Qed.

(** What a publication that raises has done, by the exception. *)
Lemma update_model_to_actors_raised (t : Z) (s : Learner) (e : exn) :
  fst (update t s) = Raised e ->
  let path := model_save_path config t in
  let s' := snd (update t s) in
  current_model_path s' = current_model_path s
  /\ match e with
     | OSError => torch_save_ok path = false /\ s' = s
     | AttributeError | ValueError =>
         torch_save_ok path = true
         /\ (if e is AttributeError then eval_msg_val s = None
             else is_Some (eval_msg_val s)
                  /\ (slot_capacity < String.length path)%nat)
         /\ files s' = {[path]} ∪ files s
         /\ checkpoint_queue s' = checkpoint_queue s ++ [Some path]
         /\ eval_msg_val s' = eval_msg_val s
         /\ trace s' = trace s ++ [EvTorchSave path; EvQueuePut (Some path)]
     | FileNotFoundError =>
         torch_save_ok path = true
         /\ (exists old, stale_path (current_model_path s) = Some old
                         /\ old ∉ {[path]} ∪ files s)
         /\ files s' = {[path]} ∪ files s
         /\ checkpoint_queue s' = checkpoint_queue s ++ [Some path]
         /\ eval_msg_val s' = Some path
         /\ trace s' = trace s ++ [EvTorchSave path; EvQueuePut (Some path);
                                   EvSlotWrite path]
         /\ is_Some (eval_msg_val s)
         /\ (String.length path <= slot_capacity)%nat
     | _ => False
     end.
Proof.
  intros Hr path s'. subst s'.
  destruct (update t s) as [r s'] eqn:E.
  unfold update_model_to_actors, torch_save, push_new_model, write_slot,
    os_remove in E.
  rewrite model_save_path_truthy in E. fold path in E.
  destruct s as [q slot cur an ti cl ce oo bo og bg en fs tr].
  unfold stale_path.
  run_cases E; simpl in Hr; try discriminate Hr; injection Hr as <-; simpl.
  all: try match goal with H : truthy None = true |- _ => discriminate H end.
  all: repeat match goal with
              | H : truthy _ = _ |- _ =>
                  first [rewrite H | simpl in H; rewrite H]; clear H
              end.
  all: rewrite <- ?app_assoc; simpl.
  all: split; [reflexivity|].
  all: repeat match goal with
              | |- _ /\ _ => split
              | |- is_Some (Some _) => eexists; reflexivity
              | |- (_ < _)%nat => apply Nat.leb_gt; assumption
              | |- (_ <= _)%nat => apply Nat.leb_le; assumption
              | |- exists old, Some ?o = Some old /\ _ => exists o; split; [reflexivity|assumption]
              | |- _ = _ => reflexivity
              end.
Qed.

End Publication.

(** ** What the checkpoint phase does *)

Section CheckpointPhase.
Context {Trajectory : Type}.
Variable agent : list Trajectory -> exn + list Q.
Variable qsize : Z -> option Z.
Variable torch_save_ok : string -> bool.
Variable shared_program_cache : option SharedProgramCache.
Variable config : Config.

Abbreviation cp := (checkpoint_phase torch_save_ok shared_program_cache config).

(** What [push_new_model] that does not raise has done. *)
Lemma push_new_model_done (p : option string) (s : Learner) :
  is_raised (fst (push_new_model p s)) = false ->
  let s' := snd (push_new_model p s) in
  fst (push_new_model p s) = Done tt
  /\ checkpoint_queue s' = checkpoint_queue s ++ [p]
  /\ eval_msg_val s' = match stale_path p with
                       | Some path => Some path
                       | None => eval_msg_val s
                       end
  /\ trace s' = trace s ++ push_events p.
Proof.
  intros Hr s'. subst s'.
  destruct (push_new_model p s) as [r s'] eqn:E.
  unfold push_new_model, write_slot in E.
  destruct s as [q slot cur an ti cl ce oo bo og bg en fs tr].
  unfold push_events, stale_path.
  run_cases E; simpl in Hr; try discriminate Hr; simpl.
  all: try match goal with H : truthy None = true |- _ => discriminate H end.
  all: repeat match goal with
              | H : truthy _ = _ |- _ =>
                  first [rewrite H | simpl in H; rewrite H]; clear H
              end.
  all: rewrite <- ?app_assoc; simpl; repeat split; reflexivity.
Qed.

Lemma log_program_cache_stat_emits :
  emits (fun e => is_checkpoint_event e = false)
        (log_program_cache_stat shared_program_cache).
Proof. unfold log_program_cache_stat, add_scalar. frames; reflexivity. Qed.

Lemma update_model_to_actors_keeps_cum t :
  keeps cum_examples (update_model_to_actors torch_save_ok config t).
Proof.
  unfold update_model_to_actors, push_new_model, torch_save, os_remove,
    write_slot.
  frames.
Qed.

Lemma log_program_cache_stat_keeps_cum :
  keeps cum_examples (log_program_cache_stat shared_program_cache).
Proof. unfold log_program_cache_stat, add_scalar. frames. Qed.

Lemma log_program_cache_stat_never_blocks :
  never_blocks (log_program_cache_stat shared_program_cache).
Proof. unfold log_program_cache_stat, add_scalar. frames. Qed.

Lemma push_new_model_keeps_cum p : keeps cum_examples (push_new_model p).
Proof. unfold push_new_model, write_slot. frames. Qed.

(** What a checkpoint phase that does not raise has done: at a save
    boundary the publication, off it the re-publication of the current
    path. *)
Lemma checkpoint_phase_done (s : Learner) :
  is_raised (fst (cp s)) = false ->
  let t := train_iter s in
  let path := model_save_path config t in
  let cur := current_model_path s in
  let s' := snd (cp s) in
  fst (cp s) = Done tt
  /\ save_every_niter config <> 0
  /\ train_iter s' = t
  /\ if t mod save_every_niter config =? 0 then
       current_model_path s' = Some path
       /\ eval_msg_val s' = Some path
       /\ checkpoint_queue s' = checkpoint_queue s ++ [Some path]
       /\ files s' = ({[path]} ∪ files s) ∖ stale_files cur
       /\ (forall old, stale_path cur = Some old -> old ∈ {[path]} ∪ files s)
       /\ cum_examples s <> 0
       /\ cum_examples s' = 0
       /\ exists tail,
            trace s' = trace s ++ [EvTorchSave path; EvQueuePut (Some path);
                                   EvSlotWrite path]
                               ++ removal_events cur ++ tail
            /\ Forall (fun e => is_checkpoint_event e = false) tail
     else
       current_model_path s' = cur
       /\ files s' = files s
       /\ checkpoint_queue s' = checkpoint_queue s ++ [cur]
       /\ eval_msg_val s' = match stale_path cur with
                            | Some p => Some p
                            | None => eval_msg_val s
                            end
       /\ cum_examples s' = cum_examples s
       /\ trace s' = trace s ++ push_events cur.
Proof.
  intros Hr t path cur s'. subst s'.
  destruct (cp s) as [r' s'] eqn:E. simpl in Hr |- *.
  unfold checkpoint_phase in E.
  unfold bind at 1 in E. unfold get_state at 1 in E. cbv beta iota in E.
  unfold py_mod in E.
  destruct (decide (save_every_niter config = 0)) as [|Hsave];
    unfold bind at 1 in E; unfold lift at 1 in E;
    [injection E as <- <-; discriminate|].
  unfold ret at 1 in E. cbv beta iota in E. fold t in E.
  destruct (t mod save_every_niter config =? 0).
  - unfold float_div in E.
    destruct (decide (cum_examples s = 0)) as [|Hcum];
      unfold bind at 1 in E; unfold lift at 1 in E;
      [injection E as <- <-; discriminate|].
    unfold ret at 1 in E. cbv beta iota in E.
    unfold bind at 1 in E. unfold modify at 1 in E. cbv beta iota in E.
    set (s2 := with_cum (Fin 0) 0 s) in E.
    assert (H2 : current_model_path s2 = cur /\ files s2 = files s
                 /\ checkpoint_queue s2 = checkpoint_queue s
                 /\ trace s2 = trace s /\ cum_examples s2 = 0).
    { subst s2 cur. now destruct s. }
    destruct H2 as (Hc2 & Hf2 & Hq2 & Ht2 & Hce2).
    pose proof (update_model_to_actors_done torch_save_ok config t s2) as Hdone.
    pose proof (update_model_to_actors_keeps_train_iter torch_save_ok config t s2) as Hti.
    pose proof (update_model_to_actors_keeps_cum t s2) as Hcu.
    destruct (bind_cases (update_model_to_actors torch_save_ok config t)
                (fun _ => log_program_cache_stat shared_program_cache) s2)
      as [(a & s3 & H3 & Hb)|[(e & s3 & _ & Hb)|(s3 & H3 & _)]].
    + rewrite Hb in E. cbv beta in E.
      rewrite H3 in Hdone, Hti, Hcu. cbn [fst snd] in Hdone, Hti, Hcu.
      destruct (Hdone eq_refl) as (_ & Hcur & Hslot & Hq & Hf & Htr & Hold).
      pose proof (log_program_cache_stat_keeps shared_program_cache s3) as Hv.
      pose proof (log_program_cache_stat_keeps_cum s3) as Hlc.
      pose proof (log_program_cache_stat_emits s3) as (tail & Htail & Hquiet).
      pose proof (log_program_cache_stat_never_blocks s3) as Hnb.
      rewrite E in Hv, Hlc, Htail, Hnb. cbn [fst snd] in Hv, Hlc, Htail, Hnb.
      unfold checkpoint_view in Hv.
      pose proof (f_equal (fun v => fst (fst (fst (fst v)))) Hv) as Hv1.
      pose proof (f_equal (fun v => snd (fst (fst (fst v)))) Hv) as Hv2.
      pose proof (f_equal (fun v => snd (fst (fst v))) Hv) as Hv3.
      pose proof (f_equal (fun v => snd (fst v)) Hv) as Hv4.
      pose proof (f_equal snd Hv) as Hv5.
      cbn [fst snd] in Hv1, Hv2, Hv3, Hv4, Hv5.
      assert (Ht : train_iter s2 = t) by (subst s2 t; now destruct s).
      assert (Hr' : r' = Done tt).
      { destruct r' as [[]| |]; [reflexivity | discriminate Hr | done]. }
      apply conj; [exact Hr'|].
      split; [exact Hsave|]. split; [rewrite Hv3, Hti; exact Ht|].
      rewrite Hv1, Hv2, Hv4, Hv5, Hlc, Hcur, Hslot, Hq, Hf, Hcu, Hc2, Hf2, Hq2.
      repeat (split; [first [reflexivity | assumption]|]).
      exists tail. split; [|assumption].
      rewrite Htail, Htr, Ht2, Hc2, <- !app_assoc. reflexivity.
    + rewrite Hb in E. injection E as <- <-. discriminate.
    + pose proof (update_model_to_actors_never_blocks torch_save_ok config t s2) as Hn.
      rewrite H3 in Hn. done.
  - pose proof (push_new_model_done cur s) as Hp.
    pose proof (push_new_model_keeps cur s) as Hk.
    pose proof (push_new_model_keeps_cum cur s) as Hkc.
    fold cur in E. rewrite E in Hp, Hk, Hkc. cbn [fst snd] in Hp, Hk, Hkc.
    destruct (Hp Hr) as (Hd & Hq & Hslot & Htr).
    pose proof (f_equal (fun v => fst (fst v)) Hk) as Hk1.
    pose proof (f_equal (fun v => snd (fst v)) Hk) as Hk2.
    pose proof (f_equal snd Hk) as Hk3. cbn [fst snd] in Hk1, Hk2, Hk3.
    repeat (split; [first [assumption | reflexivity]|]). assumption.
Qed.
End CheckpointPhase.

(** ** Rules for properties of the checkpoint state *)

Section LoopRules.
Context {Trajectory : Type}.
Variable agent : list Trajectory -> exn + list Q.
Variable qsize : Z -> option Z.
Variable torch_save_ok : string -> bool.
Variable shared_program_cache : option SharedProgramCache.
Variable config : Config.

Abbreviation cp := (checkpoint_phase torch_save_ok shared_program_cache config).
Abbreviation body := (iteration_body agent qsize torch_save_ok shared_program_cache config).
Abbreviation loop := (train_loop agent qsize torch_save_ok shared_program_cache config).

(** A property of the checkpoint view passes through a phase that keeps
    the view and does not block. *)
Lemma hoare_bind_view {A B} (I J : Learner -> Prop) (m : M A) (k : A -> M B) :
  never_blocks m -> keeps checkpoint_view m ->
  (forall s s', checkpoint_view s' = checkpoint_view s -> I s -> I s') ->
  (forall a, hoare I (k a) (unless_raised J)) ->
  hoare I (bind m k) (unless_raised J).
Proof.
  intros Hnb Hk Hview Hcont s HI.
  pose proof (Hnb s) as Hn. pose proof (Hk s) as Hv.
  destruct (bind_cases m k s)
    as [(a & s1 & H1 & ->)|[(e & s1 & H1 & ->)|(s1 & H1 & _)]].
  - rewrite H1 in Hv. apply Hcont. now apply (Hview s).
  - intros Hr. discriminate Hr.
  - rewrite H1 in Hn. done.
Qed.

(** The rule of the body: only the checkpoint phase matters to a property
    of the checkpoint view. *)
Lemma iteration_body_rule (I J : Learner -> Prop) batch :
  (forall s s', checkpoint_view s' = checkpoint_view s -> I s -> I s') ->
  (forall s s', checkpoint_view s' = checkpoint_view s -> J s -> J s') ->
  hoare I cp (unless_raised J) ->
  hoare I (body batch) (unless_raised J).
Proof.
  intros HI HJ Hcp. destruct batch as [ts info]. unfold iteration_body.
  apply hoare_bind_view;
    [apply forward_backward_never_blocks|apply forward_backward_keeps|exact HI|].
  intros loss. apply hoare_bind_view;
    [apply optimizer_update_never_blocks|apply optimizer_update_keeps|exact HI|].
  intros ?. apply hoare_bind_view;
    [apply bookkeeping_never_blocks|apply bookkeeping_keeps|exact HI|].
  intros ? s Hs.
  specialize (Hcp s Hs).
  pose proof (checkpoint_phase_never_blocks torch_save_ok shared_program_cache config s) as Hn.
  destruct (bind_cases cp (fun _ => program_cache_phase shared_program_cache config) s)
    as [(a' & s1 & H1 & ->)|[(e & s1 & H1 & ->)|(s1 & H1 & _)]].
  - rewrite H1 in Hcp. intros _.
    apply (HJ s1); [apply program_cache_phase_keeps|]. now apply Hcp.
  - intros Hr. discriminate Hr.
  - rewrite H1 in Hn. done.
Qed.

(** The rule of the loop: [I] between iterations, [I'] where the body
    starts; a blocked loop stands where a body would start. *)
Lemma train_loop_rule (I I' : Learner -> Prop) :
  (forall s, train_iter s < max_train_step config -> I s -> I' (after_loop_head s)) ->
  (forall batch, hoare I' (body batch) (unless_raised I)) ->
  forall inputs,
    hoare I (loop inputs)
      (fun r s' => match r with
                   | Done _ => I s'
                   | Blocked => I' s'
                   | Raised _ => True
                   end).
Proof.
  intros Hhead Hbody inputs.
  induction inputs as [|batch rest IH]; intros s Hs.
  - destruct (Z.lt_ge_cases (train_iter s) (max_train_step config)) as [Hlt|Hge].
    + rewrite train_loop_nil by assumption. now apply Hhead.
    + rewrite train_loop_done by assumption. exact Hs.
  - destruct (Z.lt_ge_cases (train_iter s) (max_train_step config)) as [Hlt|Hge].
    2:{ rewrite train_loop_done by assumption. exact Hs. }
    rewrite train_loop_cons by assumption.
    pose proof (Hbody batch (after_loop_head s) (Hhead s Hlt Hs)) as Hit.
    rewrite <- iteration_run in Hit.
    pose proof (iteration_never_blocks agent qsize torch_save_ok
                  shared_program_cache config batch s) as Hn.
    destruct (bind_cases
                (iteration agent qsize torch_save_ok shared_program_cache config batch)
                (fun _ => loop rest) s)
      as [(a & s1 & H1 & ->)|[(e & s1 & H1 & ->)|(s1 & H1 & _)]].
    + rewrite H1 in Hit. apply IH. now apply Hit.
    + simpl. trivial.
    + rewrite H1 in Hn. done.
Qed.

End LoopRules.

(** ** The checkpoint protocol over a run *)

Section Protocol.
Context {Trajectory : Type}.
Variable agent : list Trajectory -> exn + list Q.
Variable qsize : Z -> option Z.
Variable torch_save_ok : string -> bool.
Variable shared_program_cache : option SharedProgramCache.
Variable config : Config.

Abbreviation cp := (checkpoint_phase torch_save_ok shared_program_cache config).
Abbreviation run_train := (train agent qsize torch_save_ok shared_program_cache config).

Lemma seqZ_last (n : Z) :
  1 <= n -> seqZ 1 n = seqZ 1 (n - 1) ++ [n].
Proof.
  intros Hn. replace n with (Z.of_nat (S (Z.to_nat (n - 1)))) at 1 by lia.
  rewrite seqZ_S. f_equal; [f_equal; lia | f_equal; lia].
Qed.

Lemma last_boundary_at (t : Z) :
  t mod save_every_niter config = 0 -> last_boundary config t = t.
Proof. unfold last_boundary. lia. Qed.

Lemma last_boundary_off (t : Z) :
  0 < save_every_niter config ->
  t mod save_every_niter config <> 0 ->
  last_boundary config t = last_boundary config (t - 1).
Proof.
  intros Hm Hmod. unfold last_boundary.
  pose proof (Z.mod_pos_bound t (save_every_niter config) Hm) as Hb.
  assert (H1 : (t - 1) mod save_every_niter config
               = t mod save_every_niter config - 1).
  { symmetry. apply (Z.mod_unique _ _ (t / save_every_niter config)); [lia|].
    pose proof (Z.div_mod t (save_every_niter config)). lia. }
  lia.
Qed.

Lemma last_boundary_range (n : Z) :
  0 < save_every_niter config -> 0 <= n ->
  0 <= last_boundary config n <= n.
Proof.
  intros Hm Hn. unfold last_boundary.
  pose proof (Z.mod_pos_bound n (save_every_niter config) Hm).
  pose proof (Z.mod_le n (save_every_niter config) Hn Hm). lia.
Qed.

Lemma protocol_state_view disk0 slot0 queue0 (n : Z) (s s' : Learner) :
  checkpoint_view s' = checkpoint_view s ->
  protocol_state config disk0 slot0 queue0 n s ->
  protocol_state config disk0 slot0 queue0 n s'.
Proof.
  intros Hv (Hn & Hc & Hf & Hs & Hq). unfold checkpoint_view in Hv.
  pose proof (f_equal (fun v => fst (fst (fst (fst v)))) Hv) as Hv1.
  pose proof (f_equal (fun v => snd (fst (fst (fst v)))) Hv) as Hv2.
  pose proof (f_equal (fun v => snd (fst v)) Hv) as Hv4.
  pose proof (f_equal snd Hv) as Hv5.
  cbn [fst snd] in Hv1, Hv2, Hv4, Hv5.
  unfold protocol_state. rewrite Hv1, Hv2, Hv4, Hv5. auto.
Qed.

(** The checkpoint phase moves the protocol from [t - 1] completed
    iterations to [t]. *)
Lemma checkpoint_phase_protocol disk0 slot0 queue0 :
  0 < save_every_niter config ->
  no_checkpoint_file config disk0 ->
  hoare (fun s => protocol_state config disk0 slot0 queue0 (train_iter s - 1) s)
        cp
        (unless_raised
           (fun s => protocol_state config disk0 slot0 queue0 (train_iter s) s)).
Proof.
  intros Hm Hdisk s (Hn & Hc & Hf & Hs & Hq) Hr.
  destruct (checkpoint_phase_done torch_save_ok shared_program_cache config s Hr)
    as (_ & _ & Hti & Hif).
  cbv zeta in Hif. unfold protocol_state. rewrite Hti.
  split; [lia|].
  destruct (train_iter s mod save_every_niter config =? 0) eqn:Hmod.
  - apply Z.eqb_eq in Hmod.
    destruct Hif as (Hc' & Hs' & Hq' & Hf' & _ & _ & _ & _).
    assert (Hafter : checkpoint_after config (train_iter s)
                     = Some (model_save_path config (train_iter s))).
    { unfold checkpoint_after. rewrite last_boundary_at by assumption.
      destruct (train_iter s =? 0) eqn:H0; [lia | reflexivity]. }
    rewrite Hafter, Hc', Hs', Hq', Hf'.
    split; [reflexivity|]. split; [|split; [reflexivity|]].
    2:{ rewrite Hq, (seqZ_last (train_iter s)) by lia.
        rewrite map_app, app_assoc. cbn [map]. now rewrite Hafter. }
    rewrite Hc, Hf. unfold stale_files, stale_path, checkpoint_after.
    pose proof (last_boundary_range (train_iter s - 1) Hm Hn) as Hlb.
    destruct (last_boundary config (train_iter s - 1) =? 0).
    + simpl. now rewrite difference_empty_L.
    + rewrite model_save_path_truthy.
      set (old := model_save_path config (last_boundary config (train_iter s - 1))).
      set (new := model_save_path config (train_iter s)).
      assert (Hne : new <> old).
      { intros Heq. apply model_save_path_inj in Heq. lia. }
      assert (Hold : old ∉ disk0) by apply Hdisk.
      set_solver.
  - apply Z.eqb_neq in Hmod.
    destruct Hif as (Hc' & Hf' & Hq' & Hs' & _ & _).
    assert (Hafter : checkpoint_after config (train_iter s)
                     = checkpoint_after config (train_iter s - 1)).
    { unfold checkpoint_after. now rewrite last_boundary_off. }
    rewrite Hc', Hf', Hs', Hq'.
    rewrite (seqZ_last (train_iter s)) by lia.
    rewrite map_app, app_assoc, <- Hq. cbn [map].
    rewrite Hafter, Hc, Hf, Hs.
    split; [reflexivity|]. split; [reflexivity|]. split; [|reflexivity].
    unfold checkpoint_after, stale_path.
    destruct (last_boundary config (train_iter s - 1) =? 0); [reflexivity|].
    now rewrite model_save_path_truthy.
Qed.

Lemma train_protocol_state (inputs : list (@SampleBatch Trajectory)) (s : Learner) :
  0 < save_every_niter config ->
  current_model_path s = None ->
  no_checkpoint_file config (files s) ->
  is_raised (fst (run_train inputs s)) = false ->
  protocol_state config (files s) (eval_msg_val s)
    (checkpoint_queue s) (completed (run_train inputs s))
    (snd (run_train inputs s)).
Proof.
  intros Hm Hcur Hdisk Hr.
  set (P := protocol_state config (files s) (eval_msg_val s)
              (checkpoint_queue s)).
  assert (Hstart : P (train_iter (train_locals s)) (train_locals s)).
  { assert (H0 : train_iter (train_locals s) = 0) by now destruct s.
    unfold P, protocol_state, checkpoint_after, last_boundary.
    rewrite H0, Zmod_0_l. change (0 - 0 =? 0) with true. cbv iota.
    destruct s; simpl in *.
    repeat split; try assumption; try reflexivity; try lia.
    now rewrite app_nil_r. }
  assert (Hhead : forall st, train_iter st < max_train_step config ->
                    P (train_iter st) st ->
                    P (train_iter (after_loop_head st) - 1) (after_loop_head st)).
  { intros st _ Hst.
    replace (train_iter (after_loop_head st) - 1) with (train_iter st)
      by (destruct st; simpl; lia).
    destruct st. exact Hst. }
  assert (Hclosed : forall d st st',
            checkpoint_view st' = checkpoint_view st ->
            P (train_iter st - d) st -> P (train_iter st' - d) st').
  { intros d st st' Hv. pose proof (checkpoint_view_eq _ _ Hv) as (_ & _ & ->).
    now apply protocol_state_view. }
  assert (Hbody : forall batch,
            hoare (fun st => P (train_iter st - 1) st)
                  (iteration_body agent qsize torch_save_ok shared_program_cache
                     config batch)
                  (unless_raised (fun st => P (train_iter st) st))).
  { intros batch. apply iteration_body_rule.
    - apply (Hclosed 1).
    - intros st st' Hv Hst. specialize (Hclosed 0 st st' Hv).
      rewrite !Z.sub_0_r in Hclosed. now apply Hclosed.
    - now apply checkpoint_phase_protocol. }
  pose proof (train_loop_rule agent qsize torch_save_ok shared_program_cache config
                (fun st => P (train_iter st) st)
                (fun st => P (train_iter st - 1) st)
                Hhead Hbody inputs (train_locals s) Hstart) as Hrule.
  cbv beta in Hrule.
  change (train_loop agent qsize torch_save_ok shared_program_cache config inputs
            (train_locals s)) with (run_train inputs s) in Hrule.
  unfold completed.
  destruct (fst (run_train inputs s)); [exact Hrule | discriminate Hr | exact Hrule].
Qed.

End Protocol.

(** * Properties of the learner *)

(** ** Checkpoint publication (C1) *)

(** C1: in every run of [update_model_to_actors], from any state and
    whatever the disk and the slot do, each put on the checkpoint queue and
    each write of the evaluator's slot comes after the [torch.save] of the
    same path, and the file is on the disk when the identifier goes out.
    A failed save publishes nothing. *)
Theorem C1_checkpoint_saved_before_published
    (torch_save_ok : string -> bool) (config : Config) (it : Z) (s : Learner) :
  exists evs,
    trace (snd (update_model_to_actors torch_save_ok config it s)) = trace s ++ evs
    /\ files (snd (update_model_to_actors torch_save_ok config it s))
       = disk_after (files s) evs
    /\ saved_before_published (files s) evs.
Proof.
  destruct (update_model_to_actors torch_save_ok config it s) as [r s'] eqn:E.
  unfold update_model_to_actors, torch_save, push_new_model, write_slot,
    os_remove in E.
  rewrite model_save_path_truthy in E.
  set (path := model_save_path config it) in E.
  destruct s as [q slot cur an ti cl ce oo bo og bg en fs tr].
  run_cases E; cbn; rewrite <- ?app_assoc; simpl;
    (eexists; split; [reflexivity || (symmetry; apply app_nil_r)|]);
    (split; [reflexivity|]);
    intros pre ev post p H Hp; split_trace H;
    destruct Hp as [Hp|Hp]; simplify_eq; cbn; split; set_solver.
Qed.

(** ** The entropy term (C6) *)

Section Entropy.
Context {Trajectory : Type}.
Variable agent : list Trajectory -> exn + list Q.
Variable qsize : Z -> option Z.
Variable torch_save_ok : string -> bool.
Variable shared_program_cache : option SharedProgramCache.
Variable config : Config.

Lemma entropy_reg_on_iff :
  entropy_reg_on config = true <-> ~ Qeq (entropy_reg_weight config) 0.
Proof.
  unfold entropy_reg_on. rewrite negb_true_iff.
  rewrite <- Qeq_bool_iff. now destruct (Qeq_bool _ _).
Qed.

(** With the entropy weight on and [entropy] unbound, the forward pass
    raises before the backward pass; the state is touched in its trace
    only, by the scalars logged so far. *)
Lemma forward_backward_entropy_unbound (ts : list (@TrainingSample Trajectory)) s :
  entropy_reg_on config = true -> entropy s = None ->
  exists e evs,
    forward_backward agent qsize config ts s
    = (Raised e, with_trace (trace s ++ evs) s)
    /\ Forall (fun ev => is_gradient_event ev = false /\ is_clip ev = false
                         /\ is_checkpoint_event ev = false) evs
    /\ (forall lp loss,
          agent (map trajectory ts) = inr lp ->
          batch_loss config lp (map weight ts) = inr loss ->
          e = UnboundLocalError).
Proof.
  intros Hon Hent.
  destruct (forward_backward agent qsize config ts s) as [r s'] eqn:E.
  unfold forward_backward, backward, clip_grad_norm in E.
  rewrite Hon in E.
  destruct s as [q slot cur an ti cl ce oo bo og bg en fs tr].
  simpl in Hent. subst en.
  run_cases E; rewrite <- ?app_assoc; simpl.
  all: eexists; eexists; (split; [reflexivity || (now rewrite app_nil_r)|]).
  all: split; [repeat constructor | intros; congruence].
Qed.

(** C6: an iteration that runs with a nonzero entropy weight while no
    entropy value is bound raises: the iteration ends in an exception, it is
    [UnboundLocalError] as soon as the agent and the loss went through, no
    backward pass, optimizer step or checkpoint event happens in it, and a
    loop that still has steps to do ends with that exception. *)
Theorem C6_entropy_unavailable_fails_fast
    (ts : list (@TrainingSample Trajectory)) (info : gmap string Q)
    (rest : list (@SampleBatch Trajectory)) (s : Learner) :
  ~ Qeq (entropy_reg_weight config) 0 ->
  entropy s = None ->
  let run := iteration agent qsize torch_save_ok shared_program_cache config (ts, info) in
  exists e,
    fst (run s) = Raised e
    /\ (forall lp loss,
          agent (map trajectory ts) = inr lp ->
          batch_loss config lp (map weight ts) = inr loss ->
          e = UnboundLocalError)
    /\ count_events is_backward (events_of run s) = 0%nat
    /\ count_events is_any_step (events_of run s) = 0%nat
    /\ count_events is_checkpoint_event (events_of run s) = 0%nat
    /\ (train_iter s < max_train_step config ->
        fst (train_loop agent qsize torch_save_ok shared_program_cache config
               ((ts, info) :: rest) s) = Raised e).
Proof.
  intros Hw Hent run. apply entropy_reg_on_iff in Hw.
  destruct (forward_backward_entropy_unbound ts (after_loop_head s) Hw)
    as (e & evs & Hfb & Hevs & He); [now destruct s|].
  assert (Hrun : run s = (Raised e, with_trace (trace (after_loop_head s) ++ evs)
                                       (after_loop_head s))).
  { unfold run. rewrite iteration_run. unfold iteration_body.
    now rewrite (bind_raised _ _ _ _ _ Hfb). }
  assert (Hev : events_of run s = [EvZeroGrad Other; EvZeroGrad Bert] ++ evs).
  { apply events_of_eq. rewrite Hrun. destruct s. cbn. now rewrite <- app_assoc. }
  exists e. rewrite Hrun, Hev.
  split; [reflexivity|]. split; [assumption|].
  split; [|split; [|split]].
  - rewrite count_events_app. simpl. apply count_events_none.
    eapply Forall_impl; [apply Hevs|]. intros ev (Hg & _).
    unfold is_gradient_event in Hg. now destruct (is_zero_grad ev), (is_backward ev).
  - rewrite count_events_app. simpl. apply count_events_none.
    eapply Forall_impl; [apply Hevs|]. intros ev (Hg & _).
    unfold is_gradient_event in Hg. now apply orb_false_iff in Hg as [_ ?].
  - rewrite count_events_app. simpl. apply count_events_none.
    eapply Forall_impl; [apply Hevs|]. now intros ev (_ & _ & ?).
  - intros Hlt.
    etransitivity; [apply (f_equal fst), train_loop_cons; assumption|].
    fold run. now rewrite (bind_raised _ _ _ _ _ Hrun).
Qed.
End Entropy.

(** ** One iteration: optimizers, clipping, loss, re-publication *)

Section Iterations.
Context {Trajectory : Type}.
Variable agent : list Trajectory -> exn + list Q.
Variable qsize : Z -> option Z.
Variable torch_save_ok : string -> bool.
Variable shared_program_cache : option SharedProgramCache.
Variable config : Config.

Abbreviation run_iteration :=
  (iteration agent qsize torch_save_ok shared_program_cache config).

(** Counting through the events of an iteration whose forward pass goes
    through: only the optimizer phase can hold steps and resets. *)
Lemma count_update_events (f : event -> bool)
    (ts : list (@TrainingSample Trajectory)) info loss s :
  forward_ok agent config ts loss ->
  (forall e, quiet e -> f e = false) ->
  (forall tag v step, f (EvAddScalar tag v step) = false) ->
  (forall g, f (EvZeroGrad g) = false) ->
  (forall l, f (EvBackward l) = false) ->
  (forall l, f (EvClipGradNorm l) = false) ->
  count_events f (events_of (run_iteration (ts, info)) s)
  = count_events f (update_events config (train_iter s + 1) [loss] [loss]).
Proof.
  intros Hok Hq Hs Hz Hb Hc.
  destruct (iteration_events agent qsize torch_save_ok shared_program_cache
              config ts info loss s Hok) as (rest & -> & Hrest).
  rewrite !count_events_app.
  rewrite (count_queue_size_events qsize f _ Hs).
  rewrite (count_events_quiet f rest Hq Hrest).
  unfold count_events at 1 2. simpl. rewrite !Hz, Hs, Hb, Hc. simpl. lia.
Qed.

(** The gradient that a step applies is that of the current batch alone. *)
Lemma step_uses_last_loss_only
    (ts : list (@TrainingSample Trajectory)) info loss s g grads :
  forward_ok agent config ts loss ->
  EvStep g grads ∈ events_of (run_iteration (ts, info)) s ->
  grads = [loss].
Proof.
  intros Hok.
  destruct (iteration_events agent qsize torch_save_ok shared_program_cache
              config ts info loss s Hok) as (rest & -> & Hrest).
  rewrite !elem_of_app. intros [Hin|[Hin|[Hin|[Hin|Hin]]]].
  - in_list Hin.
  - unfold queue_size_events in Hin. destruct (qsize _); in_list Hin.
  - in_list Hin.
  - unfold update_events in Hin.
    repeat case_match; in_list Hin.
  - rewrite Forall_forall in Hrest. apply Hrest in Hin as (Hg & _).
    unfold is_gradient_event in Hg. apply orb_false_iff in Hg as [_ Hg].
    discriminate.
Qed.

(** C4 (as amended): in an iteration with counter [t] whose forward pass
    goes through, the BERT optimizer is stepped once if [t] is an
    accumulation boundary and [t > freeze_bert_niter], and not at all
    otherwise; the other optimizer is rebuilt once if [t] is an accumulation
    boundary and [t = freeze_bert_niter], and not at all otherwise. *)
Theorem C4_freeze_boundary
    (ts : list (@TrainingSample Trajectory)) info loss s :
  forward_ok agent config ts loss ->
  gradient_accumulation_niter config <> 0 ->
  let t := train_iter s + 1 in
  let boundary := t mod gradient_accumulation_niter config =? 0 in
  let evs := events_of (run_iteration (ts, info)) s in
  count_events (is_step Bert) evs
  = (if boundary && (freeze_bert_for_niter config <? t) then 1%nat else 0%nat)
  /\ count_events is_reset evs
     = (if boundary && (t =? freeze_bert_for_niter config) then 1%nat else 0%nat).
Proof.
  intros Hok HK t boundary evs. subst evs.
  rewrite !(count_update_events _ ts info loss s Hok);
    try (intros; reflexivity);
    try (intros; now (apply quiet_not_step || apply quiet_not_reset)).
  fold t. unfold update_events, py_mod, boundary.
  destruct (decide (gradient_accumulation_niter config = 0)) as [|_]; [done|].
  destruct (t mod gradient_accumulation_niter config =? 0); simpl; [|done].
  destruct (freeze_bert_for_niter config <? t) eqn:Hlt; simpl.
  - split; [reflexivity|].
    destruct (t =? freeze_bert_for_niter config) eqn:Heq; [lia | reflexivity].
  - destruct (t =? freeze_bert_for_niter config); done.
Qed.

(** C7 (as amended): clipping is applied once in every iteration whose
    forward pass goes through, whatever the accumulation count and whether
    or not the iteration is an accumulation boundary; it comes after the
    backward pass and before any optimizer step of the iteration. *)
Theorem C7_clipping_every_iteration
    (ts : list (@TrainingSample Trajectory)) info loss s :
  forward_ok agent config ts loss ->
  let evs := events_of (run_iteration (ts, info)) s in
  count_events is_clip evs = 1%nat
  /\ exists pre post,
       evs = pre ++ [EvBackward loss; EvClipGradNorm [loss]] ++ post
       /\ count_events is_any_step pre = 0%nat
       /\ count_events is_clip post = 0%nat.
Proof.
  intros Hok evs. subst evs.
  destruct (iteration_events agent qsize torch_save_ok shared_program_cache
              config ts info loss s Hok) as (rest & -> & Hrest).
  assert (Hupd : count_events is_clip
                   (update_events config (train_iter s + 1) [loss] [loss]) = 0%nat).
  { unfold update_events. repeat case_match; reflexivity. }
  assert (Hqs : forall f, (forall tag v step, f (EvAddScalar tag v step) = false) ->
                 count_events f (queue_size_events qsize (train_iter s + 1)) = 0%nat).
  { intros f Hf. now apply count_queue_size_events. }
  split.
  - rewrite !count_events_app, Hupd, (Hqs is_clip) by done.
    now rewrite (count_events_quiet is_clip rest quiet_not_clip Hrest).
  - exists ([EvZeroGrad Other; EvZeroGrad Bert]
            ++ queue_size_events qsize (train_iter s + 1)
            ++ [EvAddScalar "parser_loss" loss (train_iter s + 1)]),
           (update_events config (train_iter s + 1) [loss] [loss] ++ rest).
    split; [now rewrite <- !app_assoc|]. split.
    + now rewrite !count_events_app, (Hqs is_any_step).
    + rewrite count_events_app, Hupd.
      now rewrite (count_events_quiet is_clip rest quiet_not_clip Hrest).
Qed.

(** ** Empty batches (C5) *)

(** C5 (as amended): the loop has no check of its own for an empty batch.
    When the agent answers on the empty list of trajectories, the loss is
    the mean of an empty tensor, [nan]; the counter has been advanced, the
    backward pass and the clipping run on [nan], and at an accumulation
    boundary the optimizer steps on that gradient. *)
Theorem C5_empty_batch_not_rejected (info : gmap string Q) loss s :
  forward_ok agent config [] loss ->
  let run := run_iteration ([], info) in
  loss = NaN
  /\ train_iter (snd (run s)) = train_iter s + 1
  /\ (exists pre post,
        events_of run s = pre ++ [EvBackward NaN; EvClipGradNorm [NaN]] ++ post)
  /\ (gradient_accumulation_niter config <> 0 ->
      (train_iter s + 1) mod gradient_accumulation_niter config = 0 ->
      EvStep Other [NaN] ∈ events_of run s).
Proof.
  intros Hok run.
  assert (Hnan : loss = NaN).
  { destruct Hok as (lp & _ & Hloss & _). now apply batch_loss_empty in Hloss. }
  split; [assumption|]. split; [apply iteration_advances_counter|].
  destruct (iteration_events agent qsize torch_save_ok shared_program_cache
              config [] info loss s Hok) as (rest & Hev & _).
  subst loss. unfold run. rewrite Hev. split.
  - exists ([EvZeroGrad Other; EvZeroGrad Bert]
            ++ queue_size_events qsize (train_iter s + 1)
            ++ [EvAddScalar "parser_loss" NaN (train_iter s + 1)]),
           (update_events config (train_iter s + 1) [NaN] [NaN] ++ rest).
    now rewrite <- !app_assoc.
  - intros HK Hmod. rewrite !elem_of_app. do 3 right. left.
    unfold update_events, py_mod.
    destruct (decide (gradient_accumulation_niter config = 0)) as [|_]; [done|].
    rewrite Hmod. simpl. left.
Qed.

(** ** The loss (C8) *)

(** C8: for a non-empty batch on which the agent returns one
    log-probability per sample, the forward pass computes, logs and
    propagates back a finite loss equal to the negative mean of
    log-probability times weight, scaled by [1/K] when the accumulation
    count [K] is above 1. *)
Theorem C8_loss_is_negative_weighted_mean
    (ts : list (@TrainingSample Trajectory)) (lp : list Q) s :
  ts <> [] ->
  agent (map trajectory ts) = inr lp ->
  length lp = length ts ->
  entropy_reg_on config = false ->
  let run := forward_backward agent qsize config ts in
  exists loss,
    fst (run s) = Done loss
    /\ scalar_eq loss
         (Fin (spec_loss (gradient_accumulation_niter config) lp (map weight ts)))
    /\ EvAddScalar "parser_loss" loss (train_iter s) ∈ events_of run s
    /\ EvBackward loss ∈ events_of run s.
Proof.
  intros Hne Hagent Hlen Hoff run.
  destruct (batch_loss_spec config lp (map weight ts)) as (q & Hloss & Hq).
  { now rewrite length_map. }
  { intros ->. destruct ts; [done | discriminate]. }
  assert (Hok : forward_ok agent config ts (Fin q)) by (exists lp; auto).
  pose proof (forward_backward_ok agent qsize config ts (Fin q) s Hok) as Hrun.
  exists (Fin q). unfold run. rewrite Hrun. split; [reflexivity|].
  split; [exact Hq|].
  rewrite (events_of_eq _ _ _ (f_equal (fun x => trace (snd x)) Hrun)).
  rewrite !elem_of_app. split; right; apply list_elem_of_In; simpl; auto.
Qed.

(** ** Re-publication before the first save (C9) *)

(** C9: in an iteration that is not a save boundary and runs while no
    checkpoint was saved yet ([current_model_path] is [None]), [None] is put
    on the checkpoint queue, and the evaluator's slot and the current path
    stay as they were. *)
Theorem C9_none_republished_before_first_save
    (ts : list (@TrainingSample Trajectory)) info loss s :
  forward_ok agent config ts loss ->
  gradient_accumulation_niter config <> 0 ->
  current_model_path s = None ->
  save_every_niter config <> 0 ->
  (train_iter s + 1) mod save_every_niter config <> 0 ->
  let s' := snd (run_iteration (ts, info) s) in
  checkpoint_queue s' = checkpoint_queue s ++ [None]
  /\ eval_msg_val s' = eval_msg_val s
  /\ current_model_path s' = None
  /\ files s' = files s.
Proof.
  intros Hok HK Hcur Hsave Hmod s'.
  destruct (iteration_reaches_checkpoint_phase agent qsize torch_save_ok
              shared_program_cache config ts info loss s Hok HK)
    as (s4 & Hrun & Hview).
  assert (H4 : current_model_path s4 = None /\ train_iter s4 = train_iter s + 1
               /\ checkpoint_queue s4 = checkpoint_queue s
               /\ eval_msg_val s4 = eval_msg_val s /\ files s4 = files s).
  { unfold checkpoint_view in Hview. destruct s. simpl in *. simplify_eq.
    repeat split; assumption. }
  destruct H4 as (Hc4 & Ht4 & Hq4 & Hs4 & Hf4).
  pose proof (checkpoint_phase_republish_none torch_save_ok shared_program_cache
                config s4 Hc4 Hsave) as Hcp.
  rewrite Ht4 in Hcp. specialize (Hcp Hmod).
  set (s5 := with_trace _ _) in Hcp.
  pose proof (program_cache_phase_keeps shared_program_cache config s5) as V.
  subst s'. rewrite Hrun, (bind_done _ _ _ _ _ Hcp).
  unfold checkpoint_view in V. subst s5. destruct s4. simpl in *.
  simplify_eq. repeat split; congruence.
Qed.

End Iterations.

(** ** The statistics of the program cache (C10) *)

Section CacheStat.
Variable torch_save_ok : string -> bool.
Variable config : Config.
Variable cache : SharedProgramCache.

(** At a save boundary with [num_envs = 0] the phase ends in an exception:
    what comes before the statistics either raises or arrives at them with
    the counter unchanged. *)
Lemma checkpoint_phase_raises_on_zero_envs (s : Learner) :
  save_every_niter config <> 0 ->
  train_iter s mod save_every_niter config = 0 ->
  num_envs (stat cache (train_iter s)) = 0 ->
  is_raised (fst (checkpoint_phase torch_save_ok (Some cache) config s)) = true.
Proof.
  intros Hsave Hmod Hz. unfold checkpoint_phase.
  unfold bind at 1. unfold get_state at 1. cbv beta iota.
  unfold py_mod. destruct (decide (save_every_niter config = 0)) as [|_]; [done|].
  unfold bind at 1. unfold lift at 1. unfold ret at 1. cbv beta iota.
  rewrite Hmod. change (0 =? 0) with true. cbv iota.
  destruct (bind_cases (lift (float_div (cum_loss s) (cum_examples s)))
              (fun _ => modify (with_cum (Fin 0) 0) ;;;
                        update_model_to_actors torch_save_ok config (train_iter s) ;;;
                        log_program_cache_stat (Some cache)) s)
    as [(a & s1 & H1 & ->)|[(e & s1 & _ & ->)|(s1 & H1 & _)]];
    [|reflexivity|].
  2:{ pose proof (never_blocks_lift (float_div (cum_loss s) (cum_examples s)) s) as Hn.
      rewrite H1 in Hn. done. }
  assert (Ht1 : train_iter s1 = train_iter s).
  { pose proof (keeps_lift train_iter (float_div (cum_loss s) (cum_examples s)) s) as Hk.
    now rewrite H1 in Hk. }
  unfold bind at 1. unfold modify at 1. cbv beta iota.
  set (s2 := with_cum (Fin 0) 0 s1).
  assert (Ht2 : train_iter s2 = train_iter s) by (subst s2; now destruct s1).
  destruct (bind_cases (update_model_to_actors torch_save_ok config (train_iter s))
              (fun _ => log_program_cache_stat (Some cache)) s2)
    as [(a' & s3 & H3 & ->)|[(e & s3 & _ & ->)|(s3 & H3 & _)]];
    [|reflexivity|].
  2:{ pose proof (update_model_to_actors_never_blocks torch_save_ok config
                    (train_iter s) s2) as Hn.
      rewrite H3 in Hn. done. }
  assert (Ht3 : train_iter s3 = train_iter s).
  { pose proof (update_model_to_actors_keeps_train_iter torch_save_ok config
                  (train_iter s) s2) as Hk.
    rewrite H3 in Hk. simpl in Hk. congruence. }
  rewrite log_program_cache_stat_zero by (now rewrite Ht3).
  reflexivity.
Qed.

(** C10: at a save boundary the average is [num_entries / num_envs] with no
    test of [num_envs]: when the cache reports [num_envs = 0] the statistics
    raise [ZeroDivisionError] and the boundary ends in an exception; a
    boundary that completes has [num_envs] nonzero, and then the scalar that
    is logged is the quotient. *)
Theorem C10_cache_average_division_unguarded (s : Learner) :
  save_every_niter config <> 0 ->
  train_iter s mod save_every_niter config = 0 ->
  let st := stat cache (train_iter s) in
  let boundary := checkpoint_phase torch_save_ok (Some cache) config in
  (num_envs st = 0 ->
     log_program_cache_stat (Some cache) s = (Raised ZeroDivisionError, s)
     /\ is_raised (fst (boundary s)) = true)
  /\ (fst (boundary s) = Done tt -> num_envs st <> 0)
  /\ (num_envs st <> 0 ->
      log_program_cache_stat (Some cache) s
      = (Done tt,
         with_trace
           (trace s ++
            [EvAddScalar "avg_num_programs_in_cache"
               (Fin (Qdiv (inject_Z (num_entries st)) (inject_Z (num_envs st))))
               (train_iter s);
             EvAddScalar "num_programs_in_cache"
               (Fin (inject_Z (num_entries st))) (train_iter s)]) s)).
Proof.
  intros Hsave Hmod st boundary. split; [|split].
  - intros Hz. split.
    + now apply log_program_cache_stat_zero.
    + now apply checkpoint_phase_raises_on_zero_envs.
  - intros Hdone Hz.
    pose proof (checkpoint_phase_raises_on_zero_envs s Hsave Hmod Hz) as Hr.
    unfold boundary in Hdone. rewrite Hdone in Hr. discriminate.
  - intros Hnz. now apply log_program_cache_stat_nonzero.
Qed.

End CacheStat.

(** ** The current checkpoint file (C2) *)

Section CurrentCheckpoint.
Context {Trajectory : Type}.
Variable agent : list Trajectory -> exn + list Q.
Variable qsize : Z -> option Z.
Variable torch_save_ok : string -> bool.
Variable shared_program_cache : option SharedProgramCache.
Variable config : Config.

(** C2: a learner that starts with no current checkpoint and no checkpoint
    file on the disk, after any run of [train] that did not end in an
    exception, either has no current path and no checkpoint file, or its
    [current_model_path] is the checkpoint of an iteration it has run and
    that file is the one checkpoint file on the disk.  This rests on the
    rotation done by each publication: from a state in order, a publication
    at a later counter that does not raise makes its own file the current
    one and the only one, the file that was current before being removed.

    Which of the two it is, is settled by the save boundaries.  With a
    positive cadence, the messages that the run has put on the checkpoint
    queue are, iteration by iteration, the checkpoint of the last boundary
    so far.  Before the first boundary nothing was published, there is no
    current path and no checkpoint file.  From the first boundary on, the
    checkpoint of the last boundary [i] among the completed iterations was
    published, it is the current path, its file is on the disk and it is the
    only checkpoint file: the file of the boundary before is gone. *)
Theorem C2_one_current_checkpoint_file
    (inputs : list (@SampleBatch Trajectory)) (s : Learner) :
  current_model_path s = None ->
  no_checkpoint_file config (files s) ->
  let final := train agent qsize torch_save_ok shared_program_cache config inputs s in
  is_raised (fst final) = false ->
  match current_model_path (snd final) with
  | None => no_checkpoint_file config (files (snd final))
  | Some p =>
      exists i, i <= train_iter (snd final)
                /\ p = model_save_path config i
                /\ p ∈ files (snd final)
                /\ only_checkpoint_file config i (files (snd final))
  end
  /\ (forall t b st,
        b < t -> checkpoint_inv config b st ->
        let st' := snd (update_model_to_actors torch_save_ok config t st) in
        is_raised (fst (update_model_to_actors torch_save_ok config t st)) = false ->
        current_model_path st' = Some (model_save_path config t)
        /\ only_checkpoint_file config t (files st'))
  /\ (0 < save_every_niter config ->
      let n := completed final in
      let published :=
        drop (length (checkpoint_queue s)) (checkpoint_queue (snd final)) in
      published = map (checkpoint_after config) (seqZ 1 n)
      /\ (n < save_every_niter config ->
          (forall p, Some p ∉ published)
          /\ current_model_path (snd final) = None
          /\ no_checkpoint_file config (files (snd final)))
      /\ (save_every_niter config <= n ->
          let i := last_boundary config n in
          n - save_every_niter config < i <= n
          /\ i mod save_every_niter config = 0
          /\ Some (model_save_path config i) ∈ published
          /\ current_model_path (snd final) = Some (model_save_path config i)
          /\ model_save_path config i ∈ files (snd final)
          /\ only_checkpoint_file config i (files (snd final)))).
Proof.
  intros Hcur Hdisk final Hr. split; [|split].
  - assert (Hinv0 : checkpoint_inv config (train_iter (train_locals s))
                      (train_locals s)).
    { unfold checkpoint_inv. destruct s. simpl in *. now rewrite Hcur. }
    pose proof (train_loop_inv agent qsize torch_save_ok shared_program_cache
                  config inputs (train_locals s) Hinv0) as Hloop.
    assert (Hfinal : final = train_loop agent qsize torch_save_ok
                               shared_program_cache config inputs (train_locals s))
      by reflexivity.
    rewrite <- Hfinal in Hloop. specialize (Hloop Hr).
    unfold checkpoint_inv in Hloop.
    destruct (current_model_path (snd final)) as [p|]; [|exact Hloop].
    destruct Hloop as (i & Hi & Hp & Honly).
    exists i. repeat (split; [assumption|]). split; [|assumption].
    rewrite Hp. now apply Honly.
  - intros t b st Hb Hinv st' Hok.
    now apply (update_model_to_actors_rotates torch_save_ok config t b st).
  - intros Hm n published.
    destruct (train_protocol_state agent qsize torch_save_ok shared_program_cache
                config inputs s Hm Hcur Hdisk Hr) as (Hn & Hc & Hf & Hs & Hq).
    fold final n in Hn, Hc, Hf, Hs, Hq.
    assert (Hpub : published = map (checkpoint_after config) (seqZ 1 n)).
    { subst published. rewrite Hq. apply drop_app_length. }
    split; [exact Hpub|].
    pose proof (Z.mod_pos_bound n (save_every_niter config) Hm) as Hmod.
    split.
    + intros Hlt.
      assert (Hnone : forall k, 0 <= k <= n -> checkpoint_after config k = None).
      { intros k Hk. unfold checkpoint_after, last_boundary.
        rewrite (Z.mod_small k) by lia. now rewrite Z.sub_diag. }
      split; [|split].
      * intros p Hin. rewrite Hpub in Hin.
        apply list_elem_of_In, in_map_iff in Hin.
        destruct Hin as (k & Hk & Hin). apply list_elem_of_In, elem_of_seqZ in Hin.
        rewrite Hnone in Hk by lia. discriminate Hk.
      * rewrite Hc. apply Hnone. lia.
      * rewrite Hf, Hnone by lia. exact Hdisk.
    + intros Hge i.
      assert (Hi : i = save_every_niter config * (n / save_every_niter config)).
      { subst i. unfold last_boundary.
        pose proof (Z.div_mod n (save_every_niter config)). lia. }
      assert (Hrange : n - save_every_niter config < i <= n).
      { subst i. unfold last_boundary. lia. }
      assert (Hafter : checkpoint_after config n = Some (model_save_path config i)).
      { unfold checkpoint_after. fold i.
        destruct (i =? 0) eqn:H0; [lia | reflexivity]. }
      split; [exact Hrange|]. split.
      { rewrite Hi, Z.mul_comm. apply Z_mod_mult. }
      split.
      { rewrite Hpub. apply list_elem_of_In, in_map_iff.
        exists n. split; [exact Hafter|].
        apply list_elem_of_In, elem_of_seqZ. lia. }
      rewrite Hc, Hf, Hafter. split; [reflexivity|]. split; [set_solver|].
      intros j. split.
      * intros Hin. apply elem_of_union in Hin. destruct Hin as [Hin|Hin].
        -- apply elem_of_singleton in Hin. now apply model_save_path_inj in Hin.
        -- now apply Hdisk in Hin.
      * intros ->. set_solver.
Qed.

End CurrentCheckpoint.

(** ** The example world *)

(** C3: with an accumulation count of 2 and two batches, the gradient of
    the first batch is zeroed before the second backward pass: the step of
    the second iteration applies the gradient of the second loss alone. *)
Theorem C3_accumulated_gradients_are_cleared :
  exists l1 l2,
    List.filter is_gradient_event
      (trace (snd (example_train (example_config 2 4 2 0)
                     [example_batch 1; example_batch 2] example_learner)))
    = [EvZeroGrad Other; EvZeroGrad Bert; EvBackward l1;
       EvZeroGrad Other; EvZeroGrad Bert; EvBackward l2;
       EvStep Other [l2]; EvStep Bert [l2]].
Proof. do 2 eexists. vm_compute. reflexivity. Qed.

(** The iteration with counter 3 = [freeze_bert_niter], with an accumulation
    count of 2, rebuilds no optimizer. *)
Lemma C4_no_reset_off_boundary :
  ~ resets_once_at_freeze example_agent (fun _ => None) (fun _ => true)
      (Some example_cache) (example_config 4 2 2 3) (example_batch 1)
      (with_train_iter 2 example_learner).
Proof. intros H. specialize (H eq_refl). vm_compute in H. discriminate. Qed.

(** In a whole run of four steps with that configuration no optimizer is
    ever rebuilt. *)
Lemma no_reset_in_run_off_boundary :
  count_events is_reset
    (trace (snd (example_train (example_config 4 2 2 3)
                   [example_batch 1; example_batch 2; example_batch 3;
                    example_batch 4] example_learner))) = 0%nat.
Proof. vm_compute. reflexivity. Qed.

Lemma C4_freeze_boundary_witness :
  let evs := events_of (example_iteration (example_config 4 2 2 2) (example_batch 1))
               (with_train_iter 1 example_learner) in
  count_events (is_step Bert) evs = 0%nat /\ count_events is_reset evs = 1%nat.
Proof.
  eapply (C4_freeze_boundary example_agent (fun _ => None) (fun _ => true)
            (Some example_cache) (example_config 4 2 2 2) [mkSample 1%nat 1] ∅ _
            (with_train_iter 1 example_learner)).
  - eexists. split; [reflexivity|]. split; [vm_compute; reflexivity | reflexivity].
  - discriminate.
Defined.

(** An empty batch goes through the first iteration of the example world. *)
Lemma C5_empty_batch_accepted :
  ~ rejects_empty_batch example_agent (fun _ => None) (fun _ => true)
      (Some example_cache) (example_config 4 2 1 0) ∅ example_learner.
Proof. intros (H & _). vm_compute in H. discriminate. Qed.

Lemma C5_empty_batch_not_rejected_witness :
  let run := example_iteration (example_config 4 2 1 0) ([], ∅) in
  NaN = NaN
  /\ train_iter (snd (run example_learner)) = train_iter example_learner + 1
  /\ (exists pre post,
        events_of run example_learner
        = pre ++ [EvBackward NaN; EvClipGradNorm [NaN]] ++ post)
  /\ (gradient_accumulation_niter (example_config 4 2 1 0) <> 0 ->
      (train_iter example_learner + 1)
        mod gradient_accumulation_niter (example_config 4 2 1 0) = 0 ->
      EvStep Other [NaN] ∈ events_of run example_learner).
Proof.
  apply (C5_empty_batch_not_rejected example_agent (fun _ => None) (fun _ => true)
           (Some example_cache) (example_config 4 2 1 0) ∅ NaN example_learner).
  exists []. split; [reflexivity|]. split; reflexivity.
Defined.

(** The first iteration, with an accumulation count of 2, is no
    accumulation boundary and clips all the same. *)
Lemma C7_clipping_off_boundary :
  ~ clips_only_at_boundary example_agent (fun _ => None) (fun _ => true)
      (Some example_cache) (example_config 4 2 2 0) (example_batch 1)
      example_learner.
Proof.
  intros H. assert (H1 : 1 < 2) by lia. specialize (H H1).
  assert (H2 : (0 + 1) mod 2 <> 0) by discriminate. specialize (H H2).
  vm_compute in H. discriminate.
Qed.

Lemma C7_clipping_every_iteration_witness :
  let evs := events_of (example_iteration (example_config 4 2 2 0) (example_batch 1))
               example_learner in
  count_events is_clip evs = 1%nat
  /\ exists pre post,
       evs = pre ++ [EvBackward (Fin (1 # 2)); EvClipGradNorm [Fin (1 # 2)]] ++ post
       /\ count_events is_any_step pre = 0%nat
       /\ count_events is_clip post = 0%nat.
Proof.
  apply (C7_clipping_every_iteration example_agent (fun _ => None) (fun _ => true)
           (Some example_cache) (example_config 4 2 2 0) [mkSample 1%nat 1] ∅
           (Fin (1 # 2)) example_learner).
  eexists. split; [reflexivity|]. split; [vm_compute; reflexivity | reflexivity].
Defined.

(** Four batches for four steps, a save at every second iteration: the
    checkpoints of iterations 2 and 4 were published, that of iteration 4 is
    the current one and the only one on the disk. *)
Lemma C2_one_current_checkpoint_file_witness :
  let config := example_config 4 2 1 0 in
  let final := example_train config
                 [example_batch 1; example_batch 2; example_batch 3;
                  example_batch 4] example_learner in
  match current_model_path (snd final) with
  | None => no_checkpoint_file config (files (snd final))
  | Some p =>
      exists i, i <= train_iter (snd final)
                /\ p = model_save_path config i
                /\ p ∈ files (snd final)
                /\ only_checkpoint_file config i (files (snd final))
  end
  /\ (forall t b st,
        b < t -> checkpoint_inv config b st ->
        let st' := snd (update_model_to_actors (fun _ => true) config t st) in
        is_raised (fst (update_model_to_actors (fun _ => true) config t st)) = false ->
        current_model_path st' = Some (model_save_path config t)
        /\ only_checkpoint_file config t (files st'))
  /\ (0 < save_every_niter config ->
      let n := completed final in
      let published :=
        drop (length (checkpoint_queue example_learner))
          (checkpoint_queue (snd final)) in
      published = map (checkpoint_after config) (seqZ 1 n)
      /\ (n < save_every_niter config ->
          (forall p, Some p ∉ published)
          /\ current_model_path (snd final) = None
          /\ no_checkpoint_file config (files (snd final)))
      /\ (save_every_niter config <= n ->
          let i := last_boundary config n in
          n - save_every_niter config < i <= n
          /\ i mod save_every_niter config = 0
          /\ Some (model_save_path config i) ∈ published
          /\ current_model_path (snd final) = Some (model_save_path config i)
          /\ model_save_path config i ∈ files (snd final)
          /\ only_checkpoint_file config i (files (snd final)))).
Proof.
  apply (C2_one_current_checkpoint_file example_agent (fun _ => None)
           (fun _ => true) (Some example_cache) (example_config 4 2 1 0)
           [example_batch 1; example_batch 2; example_batch 3; example_batch 4]
           example_learner).
  - reflexivity.
  - intros i. apply not_elem_of_empty.
  - vm_compute. reflexivity.
Defined.

(** In that run the checkpoint of iteration 2 went out first and was
    removed when that of iteration 4 was published. *)
Lemma checkpoint_rotation_in_example_run :
  let final := example_train (example_config 4 2 1 0)
                 [example_batch 1; example_batch 2; example_batch 3;
                  example_batch 4] example_learner in
  checkpoint_queue (snd final)
  = [None; Some "work/agent_state.iter2.bin"; Some "work/agent_state.iter2.bin";
     Some "work/agent_state.iter4.bin"]
  /\ current_model_path (snd final) = Some "work/agent_state.iter4.bin"
  /\ "work/agent_state.iter4.bin" ∈ files (snd final)
  /\ "work/agent_state.iter2.bin" ∉ files (snd final).
Proof.
  cbv zeta. split; [vm_compute; reflexivity|]. split; [vm_compute; reflexivity|].
  split; apply (bool_decide_unpack _); vm_compute; exact I.
Qed.

Lemma C6_entropy_unavailable_fails_fast_witness :
  let run := iteration example_agent (fun _ => None) (fun _ => true)
               (Some example_cache) entropy_config (example_batch 1) in
  exists e,
    fst (run example_learner) = Raised e
    /\ (forall lp loss,
          example_agent (map trajectory [mkSample 1%nat 1]) = inr lp ->
          batch_loss entropy_config lp (map weight [mkSample 1%nat 1]) = inr loss ->
          e = UnboundLocalError)
    /\ count_events is_backward (events_of run example_learner) = 0%nat
    /\ count_events is_any_step (events_of run example_learner) = 0%nat
    /\ count_events is_checkpoint_event (events_of run example_learner) = 0%nat
    /\ (train_iter example_learner < max_train_step entropy_config ->
        fst (train_loop example_agent (fun _ => None) (fun _ => true)
               (Some example_cache) entropy_config
               (example_batch 1 :: [example_batch 2]) example_learner) = Raised e).
Proof.
  apply (C6_entropy_unavailable_fails_fast example_agent (fun _ => None)
           (fun _ => true) (Some example_cache) entropy_config
           [mkSample 1%nat 1] ∅ [example_batch 2] example_learner).
  - intros H. discriminate H.
  - reflexivity.
Defined.

Lemma C8_loss_is_negative_weighted_mean_witness :
  let config := example_config 4 2 2 0 in
  let ts := [mkSample 1%nat 1; mkSample 2%nat (1 # 2)] in
  let run := forward_backward example_agent (fun _ => None) config ts in
  exists loss,
    fst (run example_learner) = Done loss
    /\ scalar_eq loss
         (Fin (spec_loss (gradient_accumulation_niter config)
                 [inject_Z (-1); inject_Z (-2)] (map weight ts)))
    /\ EvAddScalar "parser_loss" loss (train_iter example_learner)
         ∈ events_of run example_learner
    /\ EvBackward loss ∈ events_of run example_learner.
Proof.
  apply (C8_loss_is_negative_weighted_mean example_agent (fun _ => None)
           (example_config 4 2 2 0)
           [mkSample 1%nat 1; mkSample 2%nat (1 # 2)]
           [inject_Z (-1); inject_Z (-2)] example_learner).
  - discriminate.
  - reflexivity.
  - reflexivity.
  - reflexivity.
Defined.

Lemma C9_none_republished_before_first_save_witness :
  let s' := snd (example_iteration (example_config 4 2 1 0) (example_batch 1)
                   example_learner) in
  checkpoint_queue s' = checkpoint_queue example_learner ++ [None]
  /\ eval_msg_val s' = eval_msg_val example_learner
  /\ current_model_path s' = None
  /\ files s' = files example_learner.
Proof.
  eapply (C9_none_republished_before_first_save example_agent (fun _ => None)
            (fun _ => true) (Some example_cache) (example_config 4 2 1 0)
            [mkSample 1%nat 1] ∅ _ example_learner).
  - eexists. split; [reflexivity|]. split; [vm_compute; reflexivity | reflexivity].
  - discriminate.
  - reflexivity.
  - discriminate.
  - discriminate.
Defined.

Lemma C10_cache_average_division_unguarded_witness :
  let config := example_config 4 2 1 0 in
  let s := with_train_iter 2 example_learner in
  let st := stat empty_cache (train_iter s) in
  let boundary := checkpoint_phase (fun _ => true) (Some empty_cache) config in
  (num_envs st = 0 ->
     log_program_cache_stat (Some empty_cache) s = (Raised ZeroDivisionError, s)
     /\ is_raised (fst (boundary s)) = true)
  /\ (fst (boundary s) = Done tt -> num_envs st <> 0)
  /\ (num_envs st <> 0 ->
      log_program_cache_stat (Some empty_cache) s
      = (Done tt,
         with_trace
           (trace s ++
            [EvAddScalar "avg_num_programs_in_cache"
               (Fin (Qdiv (inject_Z (num_entries st)) (inject_Z (num_envs st))))
               (train_iter s);
             EvAddScalar "num_programs_in_cache"
               (Fin (inject_Z (num_entries st))) (train_iter s)]) s)).
Proof.
  apply (C10_cache_average_division_unguarded (fun _ => true)
           (example_config 4 2 1 0) empty_cache
           (with_train_iter 2 example_learner)).
  - discriminate.
  - reflexivity.
Defined.
(** * Further properties of the learner *)

(** ** The loop and its counter *)

Section LoopCounter.
Context {Trajectory : Type}.
Variable agent : list Trajectory -> exn + list Q.
Variable qsize : Z -> option Z.
Variable torch_save_ok : string -> bool.
Variable shared_program_cache : option SharedProgramCache.
Variable config : Config.

(** X1: [train] reads at most [max_train_step] batches, one per step.  It
    returns when the counter has reached [max_train_step], which takes that
    many batches; when the queue runs dry first it blocks, the counter
    already advanced for the iteration that waits; when an iteration raises,
    the counter is that of the iteration. *)
Theorem train_counts_one_batch_per_step
    (inputs : list (@SampleBatch Trajectory)) (s : Learner) :
  let n := Z.of_nat (length inputs) in
  let final := train agent qsize torch_save_ok shared_program_cache config inputs s in
  match fst final with
  | Done _ =>
      train_iter (snd final) = Z.max 0 (max_train_step config)
      /\ max_train_step config <= n
  | Blocked =>
      train_iter (snd final) = n + 1 /\ n < max_train_step config
  | Raised _ =>
      1 <= train_iter (snd final) <= n
      /\ train_iter (snd final) <= max_train_step config
  end.
Proof.
  intros n final.
  pose proof (train_loop_counter agent qsize torch_save_ok shared_program_cache
                config inputs (train_locals s)) as H.
  cbn zeta in H.
  change (train_loop agent qsize torch_save_ok shared_program_cache config inputs
            (train_locals s)) with final in H.
  assert (H0 : train_iter (train_locals s) = 0) by now destruct s.
  rewrite H0 in H. fold n in H.
  destruct (fst final); lia.
Qed.

End LoopCounter.

(** ** The checkpoint of the last save boundary *)

Section LastBoundary.
Context {Trajectory : Type}.
Variable agent : list Trajectory -> exn + list Q.
Variable qsize : Z -> option Z.
Variable torch_save_ok : string -> bool.
Variable shared_program_cache : option SharedProgramCache.
Variable config : Config.

Abbreviation run_train := (train agent qsize torch_save_ok shared_program_cache config).


End LastBoundary.

(** ** The optimizers, and the cadences at 0 *)

Section IterationFacts.
Context {Trajectory : Type}.
Variable agent : list Trajectory -> exn + list Q.
Variable qsize : Z -> option Z.
Variable torch_save_ok : string -> bool.
Variable shared_program_cache : option SharedProgramCache.
Variable config : Config.

Abbreviation cp := (checkpoint_phase torch_save_ok shared_program_cache config).
Abbreviation pc := (program_cache_phase shared_program_cache config).
Abbreviation iter := (iteration agent qsize torch_save_ok shared_program_cache config).

Lemma optimizer_update_optimizers (s : Learner) :
  gradient_accumulation_niter config <> 0 ->
  other_optimizer (snd (optimizer_update config s))
  = other_optimizer_after config (train_iter s) (other_optimizer s)
  /\ bert_optimizer (snd (optimizer_update config s))
     = bert_optimizer_after config (train_iter s) (bert_optimizer s).
Proof.
  intros HK.
  destruct (optimizer_update config s) as [r s'] eqn:E.
  unfold optimizer_update, optimizer_step, py_mod in E.
  unfold other_optimizer_after, bert_optimizer_after.
  destruct (decide (gradient_accumulation_niter config = 0)) as [|_]; [done|].
  destruct s as [q slot cur an ti cl ce oo bo og bg en fs tr].
  run_cases E; simpl; use_cases; split; reflexivity.
Qed.

Lemma after_update_keeps_optimizers l (ts : list (@TrainingSample Trajectory)) info :
  keeps (fun s => (other_optimizer s, bert_optimizer s))
        (bookkeeping config l ts info ;;; cp ;;; pc).
Proof.
  unfold bookkeeping, checkpoint_phase, program_cache_phase,
    update_model_to_actors, log_program_cache_stat, push_new_model,
    torch_save, os_remove, write_slot, add_scalar.
  frames.
Qed.

Lemma iteration_optimizers
    (ts : list (@TrainingSample Trajectory)) info loss s :
  forward_ok agent config ts loss ->
  gradient_accumulation_niter config <> 0 ->
  let s' := snd (iter (ts, info) s) in
  let t := train_iter s + 1 in
  other_optimizer s' = other_optimizer_after config t (other_optimizer s)
  /\ bert_optimizer s' = bert_optimizer_after config t (bert_optimizer s).
Proof.
  intros Hok HK s' t. subst s'.
  pose proof (forward_backward_ok agent qsize config ts loss (after_loop_head s) Hok) as Hfb.
  set (s2 := with_trace _ _) in Hfb.
  destruct (optimizer_update config s2) as [r3 s3] eqn:E3.
  pose proof (optimizer_update_done config s2 HK) as H3.
  pose proof (optimizer_update_optimizers s2 HK) as Hopt.
  rewrite E3 in H3, Hopt. cbn [fst snd] in H3, Hopt. subst r3.
  pose proof (after_update_keeps_optimizers loss ts info s3) as Hk.
  rewrite iteration_run. unfold iteration_body.
  rewrite (bind_done _ _ _ _ _ Hfb), (bind_done _ _ _ _ _ E3).
  pose proof (f_equal fst Hk) as Hk1. pose proof (f_equal snd Hk) as Hk2.
  cbn [fst snd] in Hk1, Hk2. rewrite Hk1, Hk2.
  destruct Hopt as [-> ->]. subst s2 t. destruct s. split; reflexivity.
Qed.

(** X8: the optimizers after an iteration whose forward pass goes through,
    whatever happens at the checkpoint: the other optimizer has one more
    step at an accumulation boundary, unless the counter is
    [freeze_bert_niter], where it is a fresh optimizer; the BERT optimizer
    has one more step at a boundary past [freeze_bert_niter], and is
    untouched up to it. *)
Theorem optimizers_after_iteration
    (ts : list (@TrainingSample Trajectory)) info loss s :
  forward_ok agent config ts loss ->
  gradient_accumulation_niter config <> 0 ->
  let s' := snd (iter (ts, info) s) in
  let t := train_iter s + 1 in
  other_optimizer s' = other_optimizer_after config t (other_optimizer s)
  /\ bert_optimizer s' = bert_optimizer_after config t (bert_optimizer s)
  /\ (t <= freeze_bert_for_niter config -> bert_optimizer s' = bert_optimizer s).
Proof.
  intros Hok HK s' t.
  destruct (iteration_optimizers ts info loss s Hok HK) as (Ho & Hb).
  split; [exact Ho|]. split; [exact Hb|].
  intros Hle. subst s'. rewrite Hb. unfold bert_optimizer_after.
  assert (Hlt : (freeze_bert_for_niter config <? train_iter s + 1) = false) by lia.
  rewrite Hlt. now rewrite andb_false_r.
Qed.

Lemma optimizer_update_zero (s : Learner) :
  gradient_accumulation_niter config = 0 ->
  optimizer_update config s = (Raised ZeroDivisionError, s).
Proof.
  intros HK. unfold optimizer_update, py_mod.
  unfold bind at 1. unfold get_state at 1. cbv beta iota. rewrite HK.
  reflexivity.
Qed.

(** X9: with an accumulation count of 0 the test of line 150 divides by zero:
    the iteration raises after the backward pass and the clipping, no
    optimizer has stepped and nothing reaches the checkpoint queue. *)
Theorem zero_accumulation_count_raises
    (ts : list (@TrainingSample Trajectory)) info loss s :
  forward_ok agent config ts loss ->
  gradient_accumulation_niter config = 0 ->
  let s' := snd (iter (ts, info) s) in
  fst (iter (ts, info) s) = Raised ZeroDivisionError
  /\ events_of (iter (ts, info)) s
     = [EvZeroGrad Other; EvZeroGrad Bert]
       ++ queue_size_events qsize (train_iter s + 1)
       ++ [EvAddScalar "parser_loss" loss (train_iter s + 1);
           EvBackward loss; EvClipGradNorm [loss]]
  /\ other_optimizer s' = other_optimizer s
  /\ bert_optimizer s' = bert_optimizer s
  /\ checkpoint_view s' = checkpoint_view (after_loop_head s).
Proof.
  intros Hok HK s'. subst s'.
  pose proof (forward_backward_ok agent qsize config ts loss (after_loop_head s) Hok) as Hfb.
  set (s2 := with_trace _ _) in Hfb.
  assert (Hrun : iter (ts, info) s = (Raised ZeroDivisionError, s2)).
  { rewrite iteration_run. unfold iteration_body.
    rewrite (bind_done _ _ _ _ _ Hfb).
    apply bind_raised. now apply optimizer_update_zero. }
  split; [now rewrite Hrun|]. split.
  - apply events_of_eq. rewrite Hrun. subst s2. destruct s. cbn.
    rewrite <- !app_assoc. reflexivity.
  - rewrite Hrun. subst s2. destruct s. repeat split; reflexivity.
Qed.

Lemma checkpoint_phase_zero (s : Learner) :
  save_every_niter config = 0 ->
  cp s = (Raised ZeroDivisionError, s).
Proof.
  intros Hz. unfold checkpoint_phase, py_mod.
  unfold bind at 1. unfold get_state at 1. cbv beta iota. rewrite Hz.
  reflexivity.
Qed.

(** X10: with a save cadence of 0 the test of line 169 divides by zero: the
    iteration raises after the optimizer phase, and nothing is saved, put
    on the checkpoint queue or written to the slot. *)
Theorem zero_save_cadence_raises
    (ts : list (@TrainingSample Trajectory)) info loss s :
  forward_ok agent config ts loss ->
  gradient_accumulation_niter config <> 0 ->
  save_every_niter config = 0 ->
  let s' := snd (iter (ts, info) s) in
  fst (iter (ts, info) s) = Raised ZeroDivisionError
  /\ files s' = files s
  /\ checkpoint_queue s' = checkpoint_queue s
  /\ eval_msg_val s' = eval_msg_val s
  /\ current_model_path s' = current_model_path s
  /\ other_optimizer s'
     = other_optimizer_after config (train_iter s + 1) (other_optimizer s).
Proof.
  intros Hok HK Hz s'.
  destruct (iteration_reaches_checkpoint_phase agent qsize torch_save_ok
              shared_program_cache config ts info loss s Hok HK)
    as (s4 & Hrun & Hview).
  pose proof (iteration_optimizers ts info loss s Hok HK) as (Hoo & _).
  cbv zeta in Hoo.
  assert (Hr : iter (ts, info) s = (Raised ZeroDivisionError, s4)).
  { rewrite Hrun. apply bind_raised. now apply checkpoint_phase_zero. }
  subst s'. rewrite Hr in *. cbn [fst snd] in *.
  unfold checkpoint_view in Hview.
  pose proof (f_equal (fun v => fst (fst (fst (fst v)))) Hview) as Hv1.
  pose proof (f_equal (fun v => snd (fst (fst (fst v)))) Hview) as Hv2.
  pose proof (f_equal (fun v => snd (fst v)) Hview) as Hv4.
  pose proof (f_equal snd Hview) as Hv5.
  cbn [fst snd] in Hv1, Hv2, Hv4, Hv5.
  split; [reflexivity|].
  rewrite Hv1, Hv2, Hv4, Hv5, Hoo. destruct s. repeat split; reflexivity.
Qed.

End IterationFacts.

(** ** Files that the learner did not write *)

Section ForeignFiles.
Context {Trajectory : Type}.
Variable agent : list Trajectory -> exn + list Q.
Variable qsize : Z -> option Z.
Variable torch_save_ok : string -> bool.
Variable shared_program_cache : option SharedProgramCache.
Variable config : Config.
Variable disk0 : gset string.
Hypothesis disk0_clean : no_checkpoint_file config disk0.

Abbreviation cp := (checkpoint_phase torch_save_ok shared_program_cache config).
Abbreviation body := (iteration_body agent qsize torch_save_ok shared_program_cache config).
Abbreviation loop := (train_loop agent qsize torch_save_ok shared_program_cache config).
Abbreviation kept := (foreign_files_kept config disk0).

Lemma always_bind {A B} (I : Learner -> Prop) (m : M A) (k : A -> M B) :
  always I m -> (forall a, always I (k a)) -> always I (bind m k).
Proof.
  intros Hm Hk s Hs. specialize (Hm s Hs). unfold bind.
  destruct (m s) as [[a|e|] s1]; simpl in *; [now apply Hk| |]; assumption.
Qed.

Lemma always_removal_view {A} (m : M A) :
  keeps removal_view m -> always kept m.
Proof.
  intros Hk s Hs. specialize (Hk s). unfold removal_view in Hk.
  unfold foreign_files_kept in *.
  injection Hk as -> ->. exact Hs.
Qed.

Lemma keeps_view_removal_view {A} (m : M A) :
  keeps checkpoint_view m -> keeps removal_view m.
Proof.
  intros Hm s. specialize (Hm s). unfold checkpoint_view in Hm.
  unfold removal_view. congruence.
Qed.

Lemma update_model_to_actors_always t :
  always kept (update_model_to_actors torch_save_ok config t).
Proof.
  intros s [Hsub Hcur].
  pose proof (update_model_to_actors_never_blocks torch_save_ok config t s) as Hn.
  pose proof (update_model_to_actors_done torch_save_ok config t s) as Hd.
  pose proof (update_model_to_actors_raised torch_save_ok config t s) as Hr.
  destruct (update_model_to_actors torch_save_ok config t s) as [[[]|e|] s'];
    cbn [fst snd] in *; [| |done].
  - destruct (Hd eq_refl) as (_ & Hc & _ & _ & Hf & _). split.
    + rewrite Hf. unfold stale_files, stale_path.
      destruct (truthy (current_model_path s)); [|set_solver].
      destruct (current_model_path s) as [old|]; [|set_solver].
      destruct Hcur as (i & ->).
      pose proof (disk0_clean i). set_solver.
    + rewrite Hc. now exists t.
  - specialize (Hr e eq_refl). destruct Hr as (Hc & He). split.
    + destruct e; try done;
        first [ destruct He as (_ & ->); exact Hsub
              | destruct He as (_ & _ & Hf & _); rewrite Hf; set_solver ].
    + now rewrite Hc.
Qed.

Lemma checkpoint_phase_always : always kept cp.
Proof.
  unfold checkpoint_phase.
  apply always_bind; [apply always_removal_view, keeps_get_state|intros s0].
  apply always_bind; [apply always_removal_view, keeps_lift|intros r].
  destruct (r =? 0).
  - apply always_bind; [apply always_removal_view, keeps_lift|intros ?].
    apply always_bind;
      [apply always_removal_view, keeps_modify; intros ?; reflexivity|intros ?].
    apply always_bind; [apply update_model_to_actors_always|intros ?].
    apply always_removal_view, keeps_view_removal_view,
      log_program_cache_stat_keeps.
  - apply always_removal_view. unfold push_new_model, write_slot. frames.
Qed.

Lemma iteration_body_always batch : always kept (body batch).
Proof.
  destruct batch as [ts info]. unfold iteration_body.
  apply always_bind;
    [apply always_removal_view, keeps_view_removal_view,
       forward_backward_keeps|intros l].
  apply always_bind;
    [apply always_removal_view, keeps_view_removal_view,
       optimizer_update_keeps|intros ?].
  apply always_bind;
    [apply always_removal_view, keeps_view_removal_view,
       bookkeeping_keeps|intros ?].
  apply always_bind; [apply checkpoint_phase_always|intros ?].
  apply always_removal_view, keeps_view_removal_view,
    program_cache_phase_keeps.
Qed.

Lemma train_loop_always inputs : always kept (loop inputs).
Proof.
  induction inputs as [|batch rest IH]; intros s Hs.
  - destruct (Z.lt_ge_cases (train_iter s) (max_train_step config)) as [Hlt|Hge].
    + rewrite train_loop_nil by assumption. destruct s. exact Hs.
    + rewrite train_loop_done by assumption. exact Hs.
  - destruct (Z.lt_ge_cases (train_iter s) (max_train_step config)) as [Hlt|Hge].
    2:{ rewrite train_loop_done by assumption. exact Hs. }
    rewrite train_loop_cons by assumption.
    apply always_bind; [|intros ?; apply IH|exact Hs].
    intros st Hst. rewrite iteration_run. apply iteration_body_always.
    destruct st. exact Hst.
Qed.

End ForeignFiles.

Section ForeignFilesRun.
Context {Trajectory : Type}.
Variable agent : list Trajectory -> exn + list Q.
Variable qsize : Z -> option Z.
Variable torch_save_ok : string -> bool.
Variable shared_program_cache : option SharedProgramCache.
Variable config : Config.

(** X7: a learner that starts with no current checkpoint, on a disk with no
    checkpoint file of its configuration, removes none of the files it
    found: whether [train] returns, blocks or ends in an exception, every
    file that was on the disk before is still there, and the current path
    is [None] or a checkpoint path of the configuration. *)
Theorem train_keeps_foreign_files
    (inputs : list (@SampleBatch Trajectory)) (s : Learner) :
  current_model_path s = None ->
  no_checkpoint_file config (files s) ->
  let final := train agent qsize torch_save_ok shared_program_cache config inputs s in
  files s ⊆ files (snd final)
  /\ match current_model_path (snd final) with
     | None => True
     | Some p => exists i, p = model_save_path config i
     end.
Proof.
  intros Hcur Hdisk final.
  apply (train_loop_always agent qsize torch_save_ok shared_program_cache config
           (files s) Hdisk inputs (train_locals s)).
  destruct s; simpl in *. split; [reflexivity|]. now rewrite Hcur.
Qed.

End ForeignFilesRun.

(** ** The checkpoint queue, and empty windows *)

Section RunFacts.
Context {Trajectory : Type}.
Variable agent : list Trajectory -> exn + list Q.
Variable qsize : Z -> option Z.
Variable torch_save_ok : string -> bool.
Variable shared_program_cache : option SharedProgramCache.
Variable config : Config.

Abbreviation cp := (checkpoint_phase torch_save_ok shared_program_cache config).
Abbreviation pc := (program_cache_phase shared_program_cache config).
Abbreviation iter := (iteration agent qsize torch_save_ok shared_program_cache config).
Abbreviation run_train := (train agent qsize torch_save_ok shared_program_cache config).

(** X6: every completed iteration puts one message on the checkpoint queue:
    after a run that did not abort, the queue holds, after what it held
    before, for each completed iteration [i] in order the checkpoint of the
    last save boundary at or below [i], or [None] before the first one. *)
Theorem checkpoint_queue_after_run
    (inputs : list (@SampleBatch Trajectory)) (s : Learner) :
  0 < save_every_niter config ->
  current_model_path s = None ->
  no_checkpoint_file config (files s) ->
  let final := run_train inputs s in
  is_raised (fst final) = false ->
  checkpoint_queue (snd final)
  = checkpoint_queue s ++ map (checkpoint_after config) (seqZ 1 (completed final)).
Proof.
  intros Hm Hcur Hdisk final Hr.
  now destruct (train_protocol_state agent qsize torch_save_ok shared_program_cache
                  config inputs s Hm Hcur Hdisk Hr) as (_ & _ & _ & _ & Hq).
Qed.

Lemma bookkeeping_cum l (ts : list (@TrainingSample Trajectory)) info s :
  entropy_reg_on config = false ->
  cum_examples (snd (bookkeeping config l ts info s))
  = cum_examples s + Z.of_nat (length ts).
Proof.
  intros Hoff.
  destruct (bookkeeping config l ts info s) as [r s'] eqn:E.
  unfold bookkeeping in E. rewrite Hoff in E.
  destruct s as [q slot cur an ti cl ce oo bo og bg en fs tr].
  run_cases E; reflexivity.
Qed.

Lemma optimizer_update_keeps_cum : keeps cum_examples (optimizer_update config).
Proof. unfold optimizer_update, optimizer_step. frames. Qed.

Lemma checkpoint_phase_empty_window (s : Learner) :
  save_every_niter config <> 0 ->
  train_iter s mod save_every_niter config = 0 ->
  cum_examples s = 0 ->
  cp s = (Raised ZeroDivisionError, s).
Proof.
  intros Hz Hmod Hcum. unfold checkpoint_phase, py_mod, float_div.
  unfold bind at 1. unfold get_state at 1. cbv beta iota.
  destruct (decide (save_every_niter config = 0)) as [|_]; [done|].
  rewrite Hmod, Hcum. reflexivity.
Qed.

(** X11: when every batch since the last save boundary was empty, the average
    loss printed at the boundary divides by a count of zero: the iteration
    raises [ZeroDivisionError] before anything is saved or published. *)
Theorem empty_window_at_boundary_raises
    (ts : list (@TrainingSample Trajectory)) info loss s :
  forward_ok agent config ts loss ->
  gradient_accumulation_niter config <> 0 ->
  save_every_niter config <> 0 ->
  (train_iter s + 1) mod save_every_niter config = 0 ->
  cum_examples s + Z.of_nat (length ts) = 0 ->
  let s' := snd (iter (ts, info) s) in
  fst (iter (ts, info) s) = Raised ZeroDivisionError
  /\ files s' = files s
  /\ checkpoint_queue s' = checkpoint_queue s
  /\ eval_msg_val s' = eval_msg_val s
  /\ current_model_path s' = current_model_path s.
Proof.
  intros Hok HK Hz Hmod Hcum s'.
  pose proof (forward_backward_ok agent qsize config ts loss (after_loop_head s) Hok) as Hfb.
  set (s2 := with_trace _ _) in Hfb.
  destruct (optimizer_update config s2) as [r3 s3] eqn:E3.
  pose proof (optimizer_update_done config s2 HK) as H3.
  pose proof (optimizer_update_keeps config s2) as V3.
  pose proof (optimizer_update_keeps_cum s2) as C3.
  rewrite E3 in H3, V3, C3. cbn [fst snd] in H3, V3, C3. subst r3.
  destruct (bookkeeping config loss ts info s3) as [r4 s4] eqn:E4.
  pose proof (bookkeeping_done config loss ts info s3) as H4.
  pose proof (bookkeeping_cum loss ts info s3) as C4.
  pose proof (bookkeeping_keeps config loss ts info s3) as V4.
  destruct Hok as (_ & _ & _ & Hoff). specialize (H4 Hoff). specialize (C4 Hoff).
  rewrite E4 in H4, C4, V4. cbn [fst snd] in H4, C4, V4. subst r4.
  assert (Hview : checkpoint_view s4 = checkpoint_view (after_loop_head s)).
  { rewrite V4, V3. subst s2. now destruct s. }
  assert (Hc4 : cum_examples s4 = 0).
  { rewrite C4, C3. subst s2. destruct s; simpl in *. exact Hcum. }
  destruct (checkpoint_view_eq _ _ Hview) as (Hcur & Hf & Ht).
  assert (Hrun : iter (ts, info) s = (Raised ZeroDivisionError, s4)).
  { rewrite iteration_run. unfold iteration_body.
    rewrite (bind_done _ _ _ _ _ Hfb), (bind_done _ _ _ _ _ E3),
      (bind_done _ _ _ _ _ E4).
    apply bind_raised. apply checkpoint_phase_empty_window; [assumption| |assumption].
    rewrite Ht. destruct s; exact Hmod. }
  subst s'. rewrite Hrun. cbn [fst snd].
  unfold checkpoint_view in Hview.
  pose proof (f_equal (fun v => snd (fst v)) Hview) as Hv4.
  pose proof (f_equal snd Hview) as Hv5.
  cbn [fst snd] in Hv4, Hv5.
  rewrite Hcur, Hf, Hv4, Hv5. destruct s. repeat split; reflexivity.
Qed.

End RunFacts.

(** ** The parameters of the optimizers *)

Lemma filter_split_permutation {A} (f : A -> bool) (l : list A) :
  Permutation (List.filter f l ++ List.filter (fun x => negb (f x)) l) l.
Proof.
  induction l as [|x l IH]; simpl; [reflexivity|].
  destruct (f x); simpl.
  - now constructor.
  - rewrite <- Permutation_middle. now constructor.
Qed.

Lemma filter_filter_andb {A} (f g : A -> bool) (l : list A) :
  List.filter f (List.filter g l) = List.filter (fun x => g x && f x) l.
Proof.
  induction l as [|x l IH]; simpl; [reflexivity|].
  destruct (g x); simpl; [destruct (f x); now rewrite IH | exact IH].
Qed.

(** X13: every parameter that requires a gradient is held by exactly one
    parameter group of exactly one optimizer, and a frozen parameter by
    none: the two BERT groups and the parameters of the other optimizer
    are, up to order, the parameters with [requires_grad]. *)
Theorem optimizers_partition_trainable_parameters (named_parameters : list Param) :
  Permutation (optimized_params named_parameters)
              (List.filter requires_grad named_parameters)
  /\ (forall p, p ∈ optimized_params named_parameters -> requires_grad p = true)
  /\ (forall g p, g ∈ bert_grouped_parameters named_parameters -> p ∈ params g ->
        contains "bert_model" (p_name p) = true
        /\ (Qeq (weight_decay g) 0 <-> in_no_decay p = true)).
Proof.
  assert (Hperm : Permutation (optimized_params named_parameters)
                    (List.filter requires_grad named_parameters)).
  { unfold optimized_params, bert_grouped_parameters, other_params, bert_params.
    cbn [map concat params]. rewrite app_nil_r.
    set (b := fun p => contains "bert_model" (p_name p)).
    rewrite (Permutation_app_comm (List.filter _ _) (List.filter in_no_decay _)).
    rewrite (filter_split_permutation in_no_decay).
    transitivity (List.filter b (List.filter requires_grad named_parameters)
                  ++ List.filter (fun x => negb (b x))
                       (List.filter requires_grad named_parameters)).
    - rewrite !filter_filter_andb. apply Permutation_app.
      + erewrite List.filter_ext; [reflexivity|]. intros p. apply andb_comm.
      + erewrite List.filter_ext; [reflexivity|]. intros p. apply andb_comm.
    - apply filter_split_permutation. }
  split; [exact Hperm|]. split.
  - intros p Hp. rewrite Hperm in Hp.
    apply list_elem_of_In, List.filter_In in Hp. tauto.
  - intros g p Hg Hp. unfold bert_grouped_parameters, bert_params in Hg.
    apply list_elem_of_In in Hg. apply list_elem_of_In in Hp. cbn [In] in Hg.
    destruct Hg as [<-|[<-|[]]]; cbn [params weight_decay] in *;
      apply List.filter_In in Hp; destruct Hp as [Hp Hd];
      apply List.filter_In in Hp; destruct Hp as [_ Hb];
      apply andb_prop in Hb; destruct Hb as [Hb _]; (split; [exact Hb|]).
    + apply negb_true_iff in Hd. rewrite Hd. split; [|discriminate].
      intros H. discriminate H.
    + rewrite Hd. split; reflexivity.
Qed.

(** ** Checkpoint paths *)

(** X2: the checkpoints of a run are files under the work directory, one name
    per iteration: the path is the work directory, a separator where it
    ends in none, and the file name of the iteration; it is not empty, and
    two iterations never share a path. *)
Theorem checkpoint_paths_distinct (c : Config) (i j : Z) :
  model_save_path c i = dir_prefix (work_dir c) +:+ checkpoint_file_name i
  /\ truthy (Some (model_save_path c i)) = true
  /\ (model_save_path c i = model_save_path c j <-> i = j).
Proof.
  split; [|split].
  - unfold model_save_path.
    now rewrite os_path_join_relative by apply checkpoint_file_name_relative.
  - apply model_save_path_truthy.
  - split; [apply model_save_path_inj | now intros ->].
Qed.

(** ** Publications: when they succeed and how they fail *)

Section PublicationSuccess.
Variable torch_save_ok : string -> bool.
Variable config : Config.

Abbreviation update := (update_model_to_actors torch_save_ok config).

(** X3: a publication goes through when the file can be written, an
    evaluator is registered, the path fits its slot and the file of the
    current path is there to be removed.  Then the new path is the current
    one, it is in the slot and last on the checkpoint queue, and the file
    that was current is gone from the disk.  The new file is on the disk
    unless the current path was already the new path: then line 214 removes
    the file that line 208 has just written, and [current_model_path] names
    a file that is not there. *)
Theorem update_model_to_actors_succeeds (t : Z) (s : Learner) :
  let path := model_save_path config t in
  torch_save_ok path = true ->
  is_Some (eval_msg_val s) ->
  (String.length path <= slot_capacity)%nat ->
  (forall old, stale_path (current_model_path s) = Some old ->
               old ∈ {[path]} ∪ files s) ->
  let s' := snd (update t s) in
  fst (update t s) = Done tt
  /\ current_model_path s' = Some path
  /\ eval_msg_val s' = Some path
  /\ checkpoint_queue s' = checkpoint_queue s ++ [Some path]
  /\ files s' = ({[path]} ∪ files s) ∖ stale_files (current_model_path s)
  /\ (forall old, stale_path (current_model_path s) = Some old -> old ∉ files s')
  /\ (path ∈ files s' <-> current_model_path s <> Some path).
Proof.
  intros path Hsave Hslot Hlen Hold s'.
  assert (Hr : is_raised (fst (update t s)) = false).
  { pose proof (update_model_to_actors_raised torch_save_ok config t s) as Hr.
    destruct (fst (update t s)) as [|e|]; [reflexivity| |reflexivity].
    specialize (Hr e eq_refl). cbv zeta in Hr. fold path in Hr.
    destruct Hr as (_ & He). exfalso.
    destruct e; try done;
      first [ solve [destruct He as (_ & Hnone & _); rewrite Hnone in Hslot;
                     now destruct Hslot]
            | solve [destruct He as (_ & (_ & Hlong) & _); lia]
            | solve [destruct He as (_ & (old & Ho & Hno) & _); now apply Hno, Hold]
            | solve [destruct He as (Hno & _); congruence] ]. }
  destruct (update_model_to_actors_done torch_save_ok config t s Hr)
    as (Hd & Hc & Hv & Hq & Hf & _).
  fold path s' in Hd, Hc, Hv, Hq, Hf.
  repeat (split; [assumption|]).
  assert (Htruthy : truthy (Some path) = true) by apply model_save_path_truthy.
  unfold stale_files, stale_path in *. split.
  - intros old Ho. rewrite Hf, Ho. set_solver.
  - rewrite Hf. destruct (current_model_path s) as [cur|].
    + destruct (truthy (Some cur)) eqn:Hcur.
      * split; [intros Hin [= ->]; set_solver | intros Hne].
        assert (cur <> path) by congruence. set_solver.
      * split; [intros _ [= ->]; congruence | intros _; set_solver].
    + cbn. split; [intros _ Hn; discriminate Hn | intros _; set_solver].
Qed.

(** X4: a publication that raises leaves [current_model_path] as it was
    and removes no file.  When the save has failed, nothing was published.
    When the save went through, the new file is on the disk beside the
    current one and its path is on the checkpoint queue although the call
    failed; the exception is then [AttributeError] when no evaluator is
    registered, the slot never written; [ValueError] when the path is longer
    than the slot, the slot unchanged; and otherwise [FileNotFoundError]
    from the removal of a current file that is not there, the slot already
    holding the new path. *)
Theorem update_model_to_actors_failure (t : Z) (s : Learner) (e : exn) :
  fst (update t s) = Raised e ->
  let path := model_save_path config t in
  let s' := snd (update t s) in
  current_model_path s' = current_model_path s
  /\ files s ⊆ files s'
  /\ (torch_save_ok path = false ->
      checkpoint_queue s' = checkpoint_queue s
      /\ eval_msg_val s' = eval_msg_val s)
  /\ (torch_save_ok path = true ->
      files s' = {[path]} ∪ files s
      /\ checkpoint_queue s' = checkpoint_queue s ++ [Some path]
      /\ match eval_msg_val s with
         | None => e = AttributeError /\ eval_msg_val s' = None
         | Some value =>
             if (String.length path <=? slot_capacity)%nat
             then e = FileNotFoundError
                  /\ eval_msg_val s' = Some path
                  /\ exists old, stale_path (current_model_path s) = Some old
                                 /\ old ∉ {[path]} ∪ files s
             else e = ValueError /\ eval_msg_val s' = Some value
         end).
Proof.
  intros He path s'.
  destruct (update_model_to_actors_raised torch_save_ok config t s e He)
    as (Hc & Hcase).
  fold path s' in Hc, Hcase.
  split; [exact Hc|].
  destruct e; try (exfalso; exact Hcase).
  - (* AttributeError *)
    destruct Hcase as (Hok & Hnone & Hf & Hq & Hs & _).
    split; [rewrite Hf; set_solver|]. split; [intros Hno; congruence|].
    intros _. split; [exact Hf|]. split; [exact Hq|].
    rewrite Hnone. split; [reflexivity | congruence].
  - (* ValueError *)
    destruct Hcase as (Hok & ([value Hsome] & Hlong) & Hf & Hq & Hs & _).
    split; [rewrite Hf; set_solver|]. split; [intros Hno; congruence|].
    intros _. split; [exact Hf|]. split; [exact Hq|].
    rewrite Hsome. apply Nat.leb_gt in Hlong. rewrite Hlong.
    split; [reflexivity | congruence].
  - (* FileNotFoundError *)
    destruct Hcase as (Hok & Hold & Hf & Hq & Hs & _ & [value Hsome] & Hlen).
    split; [rewrite Hf; set_solver|]. split; [intros Hno; congruence|].
    intros _. split; [exact Hf|]. split; [exact Hq|].
    rewrite Hsome. apply Nat.leb_le in Hlen. rewrite Hlen. auto.
  - (* OSError *)
    destruct Hcase as (Hno & Heq). rewrite Heq.
    split; [reflexivity|]. split; [intros _; split; reflexivity|].
    intros Hok. congruence.
Qed.

End PublicationSuccess.

(** ** The dump of the program cache *)

Section Dumps.
Context {Trajectory : Type}.
Variable agent : list Trajectory -> exn + list Q.
Variable qsize : Z -> option Z.
Variable torch_save_ok : string -> bool.
Variable shared_program_cache : option SharedProgramCache.
Variable config : Config.

Abbreviation no_dump := (fun e => is_dump e = false).
Abbreviation loop := (train_loop agent qsize torch_save_ok shared_program_cache config).

Hypothesis dumps_off : save_program_cache_niter config <= 0.

Lemma iteration_body_no_dump batch :
  emits no_dump
    (iteration_body agent qsize torch_save_ok shared_program_cache config batch).
Proof.
  assert (Hoff : (0 <? save_program_cache_niter config) = false) by lia.
  unfold iteration_body, forward_backward, optimizer_update, bookkeeping,
    checkpoint_phase, program_cache_phase, update_model_to_actors,
    log_program_cache_stat, push_new_model, torch_save, os_remove, write_slot,
    optimizer_step, backward, clip_grad_norm, add_scalar.
  rewrite Hoff. cbn [andb].
  frames; reflexivity.
Qed.

Lemma train_loop_no_dump inputs : emits no_dump (loop inputs).
Proof.
  induction inputs as [|batch rest IH]; cbn [train_loop];
    unfold loop_head, zero_grad; frames; try reflexivity.
  - apply iteration_body_no_dump.
  - exact IH.
Qed.

(** X12: with [save_program_cache_niter] at its default of 0, or negative, a
    run never dumps the program cache. *)
Theorem no_program_cache_dump_by_default
    (inputs : list (@SampleBatch Trajectory)) (s : Learner) (t : Z) :
  EvDumpProgramCache t
    ∉ events_of (train agent qsize torch_save_ok shared_program_cache config inputs) s.
Proof.
  assert (Hem : emits no_dump
                  (train agent qsize torch_save_ok shared_program_cache config inputs)).
  { unfold train. frames. apply train_loop_no_dump. }
  pose proof (emits_events _ _ s Hem) as Hall.
  rewrite Forall_forall in Hall. intros Hin.
  specialize (Hall _ Hin). discriminate Hall.
Qed.

End Dumps.

(** ** The running count of examples *)

Section RunningCount.
Context {Trajectory : Type}.
Variable agent : list Trajectory -> exn + list Q.
Variable qsize : Z -> option Z.
Variable torch_save_ok : string -> bool.
Variable shared_program_cache : option SharedProgramCache.
Variable config : Config.

Abbreviation cp := (checkpoint_phase torch_save_ok shared_program_cache config).
Abbreviation pc := (program_cache_phase shared_program_cache config).
Abbreviation body := (iteration_body agent qsize torch_save_ok shared_program_cache config).
Abbreviation iter := (iteration agent qsize torch_save_ok shared_program_cache config).

Lemma iteration_body_at_checkpoint_phase
    (ts : list (@TrainingSample Trajectory)) info loss s :
  forward_ok agent config ts loss ->
  gradient_accumulation_niter config <> 0 ->
  exists s4,
    body (ts, info) s = (cp ;;; pc) s4
    /\ checkpoint_view s4 = checkpoint_view s
    /\ cum_examples s4 = cum_examples s + Z.of_nat (length ts).
Proof.
  intros Hok HK.
  pose proof (forward_backward_ok agent qsize config ts loss s Hok) as Hfb.
  set (s2 := with_trace _ _) in Hfb.
  destruct (optimizer_update config s2) as [r3 s3] eqn:E3.
  pose proof (optimizer_update_done config s2 HK) as H3.
  pose proof (optimizer_update_keeps config s2) as V3.
  pose proof (optimizer_update_keeps_cum config s2) as C3.
  rewrite E3 in H3, V3, C3. cbn [fst snd] in H3, V3, C3. subst r3.
  destruct (bookkeeping config loss ts info s3) as [r4 s4] eqn:E4.
  pose proof (bookkeeping_done config loss ts info s3) as H4.
  pose proof (bookkeeping_cum config loss ts info s3) as C4.
  pose proof (bookkeeping_keeps config loss ts info s3) as V4.
  destruct Hok as (_ & _ & _ & Hoff). specialize (H4 Hoff). specialize (C4 Hoff).
  rewrite E4 in H4, C4, V4. cbn [fst snd] in H4, C4, V4. subst r4.
  exists s4. split; [|split].
  - unfold iteration_body.
    rewrite (bind_done _ _ _ _ _ Hfb), (bind_done _ _ _ _ _ E3).
    now rewrite (bind_done _ _ _ _ _ E4).
  - rewrite V4, V3. subst s2. now destruct s.
  - rewrite C4, C3. subst s2. now destruct s.
Qed.

Lemma program_cache_phase_keeps_cum : keeps cum_examples pc.
Proof. unfold program_cache_phase. frames. Qed.

(** X15: the running count of examples is the number of examples seen
    since the last save boundary.  An iteration that completes off a
    boundary has added the size of its batch; one that completes at a
    boundary has seen at least one example since the boundary before, and
    starts the count again at 0. *)
Theorem running_count_after_iteration
    (ts : list (@TrainingSample Trajectory)) info loss s :
  forward_ok agent config ts loss ->
  gradient_accumulation_niter config <> 0 ->
  is_raised (fst (iter (ts, info) s)) = false ->
  let s' := snd (iter (ts, info) s) in
  let seen := cum_examples s + Z.of_nat (length ts) in
  if (train_iter s + 1) mod save_every_niter config =? 0
  then seen <> 0 /\ cum_examples s' = 0
  else cum_examples s' = seen.
Proof.
  intros Hok HK Hr s' seen. subst s'.
  destruct (iteration_body_at_checkpoint_phase ts info loss (after_loop_head s) Hok HK)
    as (s4 & Hrun & Hview & Hcum4).
  rewrite iteration_run, Hrun in Hr |- *.
  destruct (checkpoint_view_eq _ _ Hview) as (_ & _ & Ht4).
  assert (Ht : train_iter s4 = train_iter s + 1) by (rewrite Ht4; now destruct s).
  assert (Hc : cum_examples s4 = seen) by (rewrite Hcum4; now destruct s).
  pose proof (checkpoint_phase_done torch_save_ok shared_program_cache config s4) as Hdone.
  pose proof (checkpoint_phase_never_blocks torch_save_ok shared_program_cache config s4)
    as Hnb.
  destruct (bind_cases cp (fun _ => pc) s4)
    as [(a & s5 & H5 & Hb)|[(e & s5 & _ & Hb)|(s5 & H5 & _)]].
  - rewrite Hb. rewrite H5 in Hdone. cbn [fst snd] in Hdone.
    destruct (Hdone eq_refl) as (_ & _ & _ & Hif). cbv zeta in Hif.
    rewrite program_cache_phase_keeps_cum. rewrite Ht in Hif.
    destruct ((train_iter s + 1) mod save_every_niter config =? 0).
    + destruct Hif as (_ & _ & _ & _ & _ & Hne & H0 & _).
      split; [now rewrite <- Hc | exact H0].
    + destruct Hif as (_ & _ & _ & _ & Hsame & _). now rewrite Hsame.
  - rewrite Hb in Hr. discriminate Hr.
  - rewrite H5 in Hnb. done.
Qed.

End RunningCount.

(** ** The further properties on the small world *)

Lemma update_model_to_actors_succeeds_witness :
  let config := example_config 4 2 1 0 in
  let path := model_save_path config 2 in
  let s' := snd (update_model_to_actors (fun _ => true) config 2 example_learner) in
  fst (update_model_to_actors (fun _ => true) config 2 example_learner) = Done tt
  /\ current_model_path s' = Some path
  /\ eval_msg_val s' = Some path
  /\ checkpoint_queue s' = checkpoint_queue example_learner ++ [Some path]
  /\ files s' = ({[path]} ∪ files example_learner)
                ∖ stale_files (current_model_path example_learner)
  /\ (forall old, stale_path (current_model_path example_learner) = Some old ->
                  old ∉ files s')
  /\ (path ∈ files s' <-> current_model_path example_learner <> Some path).
Proof.
  apply (update_model_to_actors_succeeds (fun _ => true) (example_config 4 2 1 0)
           2 example_learner).
  - reflexivity.
  - eexists. reflexivity.
  - apply Nat.leb_le. vm_compute. reflexivity.
  - intros old H. discriminate H.
Defined.

(** A learner with no evaluator registered: the first publication saves
    its file, puts the path on the queue and raises at the slot. *)
Lemma update_model_to_actors_failure_witness :
  let config := example_config 4 2 1 0 in
  let path := model_save_path config 2 in
  let s := init ∅ in
  let s' := snd (update_model_to_actors (fun _ => true) config 2 s) in
  current_model_path s' = current_model_path s
  /\ files s ⊆ files s'
  /\ ((fun _ : string => true) path = false ->
      checkpoint_queue s' = checkpoint_queue s
      /\ eval_msg_val s' = eval_msg_val s)
  /\ ((fun _ : string => true) path = true ->
      files s' = {[path]} ∪ files s
      /\ checkpoint_queue s' = checkpoint_queue s ++ [Some path]
      /\ match eval_msg_val s with
         | None => AttributeError = AttributeError /\ eval_msg_val s' = None
         | Some value =>
             if (String.length path <=? slot_capacity)%nat
             then AttributeError = FileNotFoundError
                  /\ eval_msg_val s' = Some path
                  /\ exists old, stale_path (current_model_path s) = Some old
                                 /\ old ∉ {[path]} ∪ files s
             else AttributeError = ValueError /\ eval_msg_val s' = Some value
         end).
Proof.
  apply (update_model_to_actors_failure (fun _ => true) (example_config 4 2 1 0)
           2 (init ∅) AttributeError).
  reflexivity.
Defined.


Lemma checkpoint_queue_after_run_witness :
  let config := example_config 4 2 1 0 in
  let final := example_train config
                 [example_batch 1; example_batch 2; example_batch 3]
                 example_learner in
  checkpoint_queue (snd final)
  = checkpoint_queue example_learner
    ++ map (checkpoint_after config) (seqZ 1 (completed final)).
Proof.
  apply (checkpoint_queue_after_run example_agent (fun _ => None)
           (fun _ => true) (Some example_cache) (example_config 4 2 1 0)
           [example_batch 1; example_batch 2; example_batch 3] example_learner).
  - reflexivity.
  - reflexivity.
  - intros i. apply not_elem_of_empty.
  - vm_compute. reflexivity.
Defined.

(** The same run on a disk that holds a file of somebody else. *)
Lemma train_keeps_foreign_files_witness :
  let config := example_config 4 2 1 0 in
  let s := with_files {["notes.txt"]} example_learner in
  let final := example_train config
                 [example_batch 1; example_batch 2; example_batch 3] s in
  files s ⊆ files (snd final)
  /\ match current_model_path (snd final) with
     | None => True
     | Some p => exists i, p = model_save_path config i
     end.
Proof.
  apply (train_keeps_foreign_files example_agent (fun _ => None)
           (fun _ => true) (Some example_cache) (example_config 4 2 1 0)
           [example_batch 1; example_batch 2; example_batch 3]
           (with_files {["notes.txt"]} example_learner)).
  - reflexivity.
  - intros i Hin.
    change (model_save_path (example_config 4 2 1 0) i
              ∈ ({["notes.txt"]} : gset string)) in Hin.
    apply elem_of_singleton in Hin.
    pose proof (f_equal String.length Hin) as Hlen. revert Hlen.
    unfold model_save_path.
    rewrite os_path_join_relative by apply checkpoint_file_name_relative.
    unfold checkpoint_file_name. rewrite !string_app_length. simpl. lia.
Defined.

(** The freeze boundary at iteration 1: the other optimizer is rebuilt
    and the BERT optimizer has not stepped. *)
Lemma optimizers_after_iteration_witness :
  let config := example_config 4 2 1 1 in
  let s' := snd (example_iteration config (example_batch 1) example_learner) in
  let t := train_iter example_learner + 1 in
  other_optimizer s'
  = other_optimizer_after config t (other_optimizer example_learner)
  /\ bert_optimizer s'
     = bert_optimizer_after config t (bert_optimizer example_learner)
  /\ (t <= freeze_bert_for_niter config ->
      bert_optimizer s' = bert_optimizer example_learner).
Proof.
  apply (optimizers_after_iteration example_agent (fun _ => None) (fun _ => true)
           (Some example_cache) (example_config 4 2 1 1) [mkSample 1%nat 1] ∅
           (Fin 1) example_learner).
  - eexists. split; [reflexivity|]. split; [vm_compute; reflexivity | reflexivity].
  - discriminate.
Defined.

Lemma zero_accumulation_count_raises_witness :
  let config := example_config 4 2 0 0 in
  let run := example_iteration config (example_batch 1) in
  let s' := snd (run example_learner) in
  fst (run example_learner) = Raised ZeroDivisionError
  /\ events_of run example_learner
     = [EvZeroGrad Other; EvZeroGrad Bert]
       ++ queue_size_events (fun _ => None) (train_iter example_learner + 1)
       ++ [EvAddScalar "parser_loss" (Fin 1) (train_iter example_learner + 1);
           EvBackward (Fin 1); EvClipGradNorm [Fin 1]]
  /\ other_optimizer s' = other_optimizer example_learner
  /\ bert_optimizer s' = bert_optimizer example_learner
  /\ checkpoint_view s' = checkpoint_view (after_loop_head example_learner).
Proof.
  apply (zero_accumulation_count_raises example_agent (fun _ => None) (fun _ => true)
           (Some example_cache) (example_config 4 2 0 0) [mkSample 1%nat 1] ∅
           (Fin 1) example_learner).
  - eexists. split; [reflexivity|]. split; [vm_compute; reflexivity | reflexivity].
  - reflexivity.
Defined.

Lemma zero_save_cadence_raises_witness :
  let config := example_config 4 0 1 0 in
  let s' := snd (example_iteration config (example_batch 1) example_learner) in
  fst (example_iteration config (example_batch 1) example_learner)
  = Raised ZeroDivisionError
  /\ files s' = files example_learner
  /\ checkpoint_queue s' = checkpoint_queue example_learner
  /\ eval_msg_val s' = eval_msg_val example_learner
  /\ current_model_path s' = current_model_path example_learner
  /\ other_optimizer s'
     = other_optimizer_after config (train_iter example_learner + 1)
         (other_optimizer example_learner).
Proof.
  apply (zero_save_cadence_raises example_agent (fun _ => None) (fun _ => true)
           (Some example_cache) (example_config 4 0 1 0) [mkSample 1%nat 1] ∅
           (Fin 1) example_learner).
  - eexists. split; [reflexivity|]. split; [vm_compute; reflexivity | reflexivity].
  - discriminate.
  - reflexivity.
Defined.

(** Saving at every iteration, the first batch empty. *)
Lemma empty_window_at_boundary_raises_witness :
  let config := example_config 4 1 1 0 in
  let run := example_iteration config ([], ∅) in
  let s' := snd (run example_learner) in
  fst (run example_learner) = Raised ZeroDivisionError
  /\ files s' = files example_learner
  /\ checkpoint_queue s' = checkpoint_queue example_learner
  /\ eval_msg_val s' = eval_msg_val example_learner
  /\ current_model_path s' = current_model_path example_learner.
Proof.
  apply (empty_window_at_boundary_raises example_agent (fun _ => None)
           (fun _ => true) (Some example_cache) (example_config 4 1 1 0) [] ∅
           NaN example_learner).
  - exists []. split; [reflexivity|]. split; reflexivity.
  - discriminate.
  - discriminate.
  - reflexivity.
  - reflexivity.
Defined.

Lemma no_program_cache_dump_by_default_witness :
  EvDumpProgramCache 2
    ∉ events_of (example_train (example_config 4 2 1 0)
                   [example_batch 1; example_batch 2; example_batch 3])
        example_learner.
Proof.
  apply (no_program_cache_dump_by_default example_agent (fun _ => None)
           (fun _ => true) (Some example_cache) (example_config 4 2 1 0)).
  intros H. discriminate H.
Defined.

(** The second iteration of a run that saves every second iteration. *)
Lemma running_count_after_iteration_witness :
  let config := example_config 4 2 1 0 in
  let s := with_cum (Fin 1) 1 (with_train_iter 1 example_learner) in
  let s' := snd (example_iteration config (example_batch 2) s) in
  let seen := cum_examples s + Z.of_nat (length [mkSample 2%nat 1]) in
  if (train_iter s + 1) mod save_every_niter config =? 0
  then seen <> 0 /\ cum_examples s' = 0
  else cum_examples s' = seen.
Proof.
  apply (running_count_after_iteration example_agent (fun _ => None) (fun _ => true)
           (Some example_cache) (example_config 4 2 1 0) [mkSample 2%nat 1] ∅
           (Fin 2) (with_cum (Fin 1) 1 (with_train_iter 1 example_learner))).
  - eexists. split; [reflexivity|]. split; [vm_compute; reflexivity | reflexivity].
  - discriminate.
  - vm_compute. reflexivity.
Defined.
